(** * A shallow embedding of the context-aware logger (logger.go)

    The Go package wraps a logrus entry.  The embedding keeps the shape of
    the source: Go strings are byte strings ([string]), [map[string]string]
    values are references into a store of finite maps, requests are
    references into a store of request structs, and the package-level
    variables of the caller resolver are part of the same state. *)

From Stdlib Require Import Ascii ZArith Lia.
From Stdlib Require String.
From Stdlib Require Import Strings.Byte.
From Equations Require Import Equations.
From stdpp Require Import gmap strings list fin_maps pretty.

(** ** Go strings: [strings.LastIndex] and slicing *)

Module Strings.

(** One left-to-right pass that remembers the position of the last byte
    equal to [c]; [acc] is the answer for the part already scanned. *)
Fixpoint lastIndexFrom (c : ascii) (i acc : Z) (s : string) : Z :=
  match s with
  | EmptyString => acc
  | String a s' =>
      lastIndexFrom c (i + 1) (if Ascii.eqb a c then i else acc) s'
  end.

(** [strings.LastIndex(s, sep)] for a separator of one byte: the index of
    the last occurrence, or -1. *)
Definition LastIndex (s : string) (sep : ascii) : Z :=
  lastIndexFrom sep 0 (-1) s.

(** [s[:n]] *)
Definition sliceTo (s : string) (n : Z) : string :=
  String.substring 0 (Z.to_nat n) s.

(** [s[n:]] *)
Definition sliceFrom (s : string) (n : Z) : string :=
  String.substring (Z.to_nat n) (String.length s - Z.to_nat n) s.

Fixpoint hasByte (c : ascii) (s : string) : bool :=
  match s with
  | EmptyString => false
  | String a s' => Ascii.eqb a c || hasByte c s'
  end.

End Strings.

Import Strings.

(** The bounds on [LastIndex] that make the loop of [getPackageName]
    terminate. *)

Lemma lastIndexFrom_bounds c s : forall i acc,
  (acc < i)%Z ->
  (acc <= lastIndexFrom c i acc s < i + Z.of_nat (String.length s))%Z.
Proof.
  induction s as [|a s IH]; intros i acc Hacc; simpl.
  - lia.
  - destruct (Ascii.eqb a c).
    + specialize (IH (i + 1)%Z i). lia.
    + specialize (IH (i + 1)%Z acc). lia.
Qed.

Lemma LastIndex_bounds s c :
  (-1 <= LastIndex s c < Z.of_nat (String.length s))%Z.
Proof.
  unfold LastIndex. pose proof (lastIndexFrom_bounds c s 0 (-1)). lia.
Qed.

Lemma length_substring_0 n s :
  String.length (String.substring 0 n s) = Nat.min n (String.length s).
Proof.
  revert n. induction s as [|a s IH]; intros [|n]; simpl; auto.
Qed.

Lemma length_sliceTo s n :
  (0 <= n <= Z.of_nat (String.length s))%Z ->
  String.length (sliceTo s n) = Z.to_nat n.
Proof. intros H. unfold sliceTo. rewrite length_substring_0. lia. Qed.

(** Every iteration of the loop of [getPackageName] cuts at a position
    strictly inside the string. *)
Lemma sliceTo_LastIndex_shorter f c :
  (-1 < LastIndex f c)%Z ->
  (String.length (sliceTo f (LastIndex f c)) < String.length f)%nat.
Proof.
  intros H. pose proof (LastIndex_bounds f c).
  rewrite length_sliceTo by lia. lia.
Qed.

(** ** [getPackageName] *)

(** The loop of the source: while the last period lies after the last
    slash, cut the string at that period.  The cut position is an index
    of the string, so the slice never goes out of range. *)
Equations? getPackageName (f : string) : string by wf (String.length f) lt :=
  getPackageName f
    with Z_lt_dec (LastIndex f "/") (LastIndex f ".") := {
    | left _ => getPackageName (sliceTo f (LastIndex f "."));
    | right _ => f }.
Proof.
  apply sliceTo_LastIndex_shorter.
  pose proof (LastIndex_bounds f "/"). lia.
Qed.

(** Follows the words of the specification: the package name is obtained
    by repeatedly stripping the last period-separated segment while the
    last period lies after the last slash. *)
Inductive StripsTo : string -> string -> Prop :=
| StripsTo_stop f :
    (forall p seg, f = p +:+ String "." seg -> hasByte "." seg = false ->
       hasByte "/" seg = true) ->
    StripsTo f f
| StripsTo_cut p seg r :
    hasByte "." seg = false -> hasByte "/" seg = false ->
    StripsTo p r ->
    StripsTo (p +:+ String "." seg) r.

(** ** The collaborators: logrus, context, runtime, io, net/http *)

(** [for key, value := range src { dst[key] = value }] *)
Definition rangeAssign {V} (src dst : gmap string V) : gmap string V :=
  map_fold (fun key value acc => <[key := value]> acc) dst src.

Module logrus.

(** [type Level uint32], most severe first. *)
Definition Level := N.
Definition PanicLevel : Level := 0%N.
Definition FatalLevel : Level := 1%N.
Definition ErrorLevel : Level := 2%N.
Definition WarnLevel : Level := 3%N.
Definition InfoLevel : Level := 4%N.
Definition DebugLevel : Level := 5%N.
Definition TraceLevel : Level := 6%N.

(** The [interface{}] values this package stores in [log.Fields]. *)
Inductive Any :=
| VString (s : string)
| VInt (n : Z).

#[global] Instance Any_eq_dec : EqDecision Any.
Proof. solve_decision. Defined.

(** [type Fields map[string]interface{}] is [gmap string Any]; an entry
    carries the fields attached so far. *)
Record Entry := { Data : gmap string Any }.

Definition NewEntry : Entry := {| Data := ∅ |}.

(** [entry.WithFields(fields)]: a copy of the entry's data, then every
    given field written over it. *)
Definition WithFields (entry : Entry) (fields : gmap string Any) : Entry :=
  {| Data := rangeAssign fields (rangeAssign (Data entry) ∅) |}.

Definition WithField (entry : Entry) (key : string) (value : Any) : Entry :=
  WithFields entry {[ key := value ]}.

(** The message arguments of the printing methods, kept as given. *)
Inductive Message :=
| Print (args : list Any)
| Printf (format : string) (args : list Any).

(** What an entry hands to the logger when one of its leveled methods is
    called: the level, the entry's data and the message. *)
Record Emitted := {
  level : Level;
  data : gmap string Any;
  message : Message }.

Definition Log (entry : Entry) (lvl : Level) (msg : Message) : Emitted :=
  {| level := lvl; data := Data entry; message := msg |}.

End logrus.

Module context.

(** A context key is an [interface{}]: equal keys have the same dynamic
    type and the same value. *)
Record Key := { keyType : string; keyValue : string }.

#[global] Instance Key_eq_dec : EqDecision Key.
Proof. solve_decision. Defined.

(** The values a context can hold, as far as this package tells them
    apart: nil, a [map[string]string] (a reference, or the nil map), or
    a value of some other dynamic type. *)
Inductive Val :=
| VNil
| VMap (ref : option positive)
| VOther (typeName : string).

Inductive Context :=
| Background
| WithValue (parent : Context) (key : Key) (val : Val).

(** [ctx.Value(key)]: the nearest binding towards the root, nil if none. *)
Fixpoint Value (ctx : Context) (key : Key) : Val :=
  match ctx with
  | Background => VNil
  | WithValue parent k v => if decide (k = key) then v else Value parent key
  end.

End context.

Module runtime.

Record Frame := { Function : string; File : string; Line : Z }.

Definition zeroFrame : Frame := {| Function := ""; File := ""; Line := 0 |}.

(** The goroutine stack as [runtime.Callers] sees it: position 0 is
    [runtime.Callers] itself, position 1 its caller, and so on.
    [Callers skip pcs] fills at most [len(pcs)] entries after skipping. *)
Definition Callers (skip len_pcs : nat) (stack : list Frame) : list Frame :=
  take len_pcs (drop skip stack).

(** [frames.Next()]: the next frame and whether more frames follow it. *)
Definition Next (frames : list Frame) : Frame * bool * list Frame :=
  match frames with
  | [] => (zeroFrame, false, [])
  | f :: rest => (f, match rest with [] => false | _ => true end, rest)
  end.

End runtime.

Module io.

(** A reader as the sequence of results of its [Read] calls: chunks of
    data, then end of file or an error. *)
Inductive Reader :=
| EOF
| Fail (err : string)
| Chunk (bytes : list Byte.byte) (rest : Reader).

(** [ioutil.ReadAll]: everything read before end of file or the first
    error; end of file is not reported as an error. *)
Fixpoint ReadAll (r : Reader) : list Byte.byte * option string :=
  match r with
  | EOF => ([], None)
  | Fail err => ([], Some err)
  | Chunk bytes rest => let '(more, err) := ReadAll rest in (bytes ++ more, err)
  end.

(** [ioutil.NopCloser(bytes.NewBuffer(buf))] *)
Definition NewBuffer (buf : list Byte.byte) : Reader :=
  match buf with
  | [] => EOF
  | _ => Chunk buf EOF
  end.

(** The unread part of a buffer, as the [String] method of
    [bytes.Buffer] returns it. *)
Definition BufferString (buf : list Byte.byte) : string :=
  String.string_of_list_byte buf.

(** What a reader has left once [ReadAll] has run over it: the end of
    file, or the error it stopped at. *)
Fixpoint drained (r : Reader) : Reader :=
  match r with
  | EOF => EOF
  | Fail err => Fail err
  | Chunk _ rest => drained rest
  end.

(** A body stream is an object in the heap, shared by every request that
    holds it: what is still unread, whether [Close] has been called, and
    whether it is a [NopCloser], on which [Close] does nothing. *)
Record Stream := { unread : Reader; closed : bool; nopCloser : bool }.

(** [ReadAll] on a stream: a closed stream gives no bytes and an error. *)
Definition readResult (s : Stream) : list Byte.byte * option string :=
  if closed s then ([], Some "read on closed body") else ReadAll (unread s).

(** The stream after [ReadAll]. *)
Definition afterRead (s : Stream) : Stream :=
  if closed s then s
  else {| unread := drained (unread s); closed := false;
          nopCloser := nopCloser s |}.

(** The stream after [Close]. *)
Definition afterClose (s : Stream) : Stream :=
  if nopCloser s then s
  else {| unread := unread s; closed := true; nopCloser := false |}.

(** The stream [ioutil.NopCloser(bytes.NewBuffer(buf))] makes. *)
Definition bufferStream (buf : list Byte.byte) : Stream :=
  {| unread := NewBuffer buf; closed := false; nopCloser := true |}.

End io.

(** [strconv.Quote], which [%q] applies to a string. *)
Class Strconv := Quote : string -> string.

Module http.

(** The parts of [http.Request] the logger touches.  [Body] is nil or a
    reference to a body stream. *)
Record Request := {
  Host : string;
  URLPath : string;
  Body : option positive;
  ctx : context.Context }.

(** [http.ResponseWriter], over the state of the sink. *)
Class ResponseWriter (S : Type) := {
  ResponseWriter_WriteHeader : Z -> S -> S;
  ResponseWriter_Write : list Byte.byte -> S -> (Z * option string) * S }.

End http.

(** ** The package state and its monad *)

Import logrus context runtime.

(** The heap of [map[string]string] values, of [*http.Request] values
    and of body streams, and the package-level variables of the caller
    resolver. *)
Record State := {
  maps : gmap positive (gmap string string);
  requests : gmap positive http.Request;
  bodies : gmap positive io.Stream;
  callerInitOnce : bool;
  minimumCallerDepth : nat;
  thisPackageName : string }.

Definition initialState : State := {|
  maps := ∅;
  requests := ∅;
  bodies := ∅;
  callerInitOnce := false;
  minimumCallerDepth := 1;
  thisPackageName := "" |}.

Definition setMaps (m : gmap positive (gmap string string)) (σ : State) : State :=
  {| maps := m; requests := requests σ; bodies := bodies σ;
     callerInitOnce := callerInitOnce σ;
     minimumCallerDepth := minimumCallerDepth σ;
     thisPackageName := thisPackageName σ |}.

Definition setRequests (r : gmap positive http.Request) (σ : State) : State :=
  {| maps := maps σ; requests := r; bodies := bodies σ;
     callerInitOnce := callerInitOnce σ;
     minimumCallerDepth := minimumCallerDepth σ;
     thisPackageName := thisPackageName σ |}.

Definition setBodies (b : gmap positive io.Stream) (σ : State) : State :=
  {| maps := maps σ; requests := requests σ; bodies := b;
     callerInitOnce := callerInitOnce σ;
     minimumCallerDepth := minimumCallerDepth σ;
     thisPackageName := thisPackageName σ |}.

(** A computation reads and writes the state; [None] is a run-time panic
    (a nil dereference). *)
Definition M (A : Type) : Type := State -> option (A * State).

#[global] Instance M_ret : MRet M := fun A a σ => Some (a, σ).
#[global] Instance M_bind : MBind M := fun A B f m σ =>
  match m σ with
  | Some (a, σ') => f a σ'
  | None => None
  end.

Definition panic {A} : M A := fun _ => None.

(** Reading a package-level variable. *)
Definition gets {A} (f : State -> A) : M A := fun σ => Some (f σ, σ).

(** [make(map[string]string, 0)] *)
Definition makeMap : M positive := fun σ =>
  let ref := fresh (dom (maps σ)) in
  Some (ref, setMaps (<[ref := ∅]> (maps σ)) σ).

(** [data[key] = value] through a map reference. *)
Definition mapAssign (ref : positive) (key value : string) : M unit := fun σ =>
  match maps σ !! ref with
  | Some m => Some (tt, setMaps (<[ref := <[key := value]> m]> (maps σ)) σ)
  | None => None
  end.

Definition readMap (ref : positive) : M (gmap string string) := fun σ =>
  match maps σ !! ref with
  | Some m => Some (m, σ)
  | None => None
  end.

Definition readRequest (r : positive) : M http.Request := fun σ =>
  match requests σ !! r with
  | Some req => Some (req, σ)
  | None => None
  end.

Definition writeRequest (r : positive) (req : http.Request) : M unit := fun σ =>
  match requests σ !! r with
  | Some _ => Some (tt, setRequests (<[r := req]> (requests σ)) σ)
  | None => None
  end.

Definition newRequest (req : http.Request) : M positive := fun σ =>
  let r := fresh (dom (requests σ)) in
  Some (r, setRequests (<[r := req]> (requests σ)) σ).

(** [ioutil.ReadAll] on a body: what the stream gives, the stream left
    drained. *)
Definition readAllBody (b : positive) : M (list Byte.byte * option string) :=
  fun σ =>
  match bodies σ !! b with
  | Some s => Some (io.readResult s, setBodies (<[b := io.afterRead s]> (bodies σ)) σ)
  | None => None
  end.

(** [body.Close()] *)
Definition closeBody (b : positive) : M unit := fun σ =>
  match bodies σ !! b with
  | Some s => Some (tt, setBodies (<[b := io.afterClose s]> (bodies σ)) σ)
  | None => None
  end.

(** [ioutil.NopCloser(bytes.NewBuffer(buf))]: a new stream. *)
Definition newNopCloser (buf : list Byte.byte) : M positive := fun σ =>
  let b := fresh (dom (bodies σ)) in
  Some (b, setBodies (<[b := io.bufferStream buf]> (bodies σ)) σ).

(** [r.Context()] *)
Definition Request_Context (r : positive) : M Context :=
  req ← readRequest r; mret (http.ctx req).

(** [r.WithContext(ctx)]: a shallow copy of the request with its context
    replaced. *)
Definition setCtx (c : Context) (req : http.Request) : http.Request :=
  {| http.Host := http.Host req; http.URLPath := http.URLPath req;
     http.Body := http.Body req; http.ctx := c |}.

Definition setBody (body : option positive) (req : http.Request) : http.Request :=
  {| http.Host := http.Host req; http.URLPath := http.URLPath req;
     http.Body := body; http.ctx := http.ctx req |}.

Definition Request_WithContext (r : positive) (c : Context) : M positive :=
  req ← readRequest r;
  newRequest (setCtx c req).

(** ** The logger *)

Definition ContextDataMapKey : Key :=
  {| keyType := "contextDataMapKeyType"; keyValue := "value" |}.

Definition ContextIdKey : string := "context_id".
Definition PathKey : string := "url_path".
Definition RequestKey : string := "request".
Definition ResponseKey : string := "response".
Definition ResponseCodeKey : string := "response_code".

Record Log := { entry : Entry }.

Record LogParams := { fields : gmap string Any }.

Record contextData := { contextId : string }.

(** The wrapper around a response sink of type [S]. *)
Record LoggingResponseWriter (S : Type) := {
  Status : Z;
  Body : string;
  ResponseWriter : S }.
Arguments Status {S} _.
Arguments Body {S} _.
Arguments ResponseWriter {S} _.

Definition maximumCallerDepth : nat := 25.
Definition knownLogFrames : nat := 3.

Definition NewLogger (service : string) : Log :=
  {| entry := WithField NewEntry "service" (VString service) |}.

(** [data[ContextIdKey]] on a map value; a missing key reads as "". *)
Definition mapIndex (m : gmap string string) (key : string) : string :=
  default "" (m !! key).

Definition getContextData (c : Context) : M (option contextData) :=
  match Value c ContextDataMapKey with
  | VMap (Some ref) =>
      data ← readMap ref;
      mret (Some {| contextId := mapIndex data ContextIdKey |})
  | VMap None => mret (Some {| contextId := mapIndex ∅ ContextIdKey |})
  | _ => mret None
  end.

Definition BuildContextDataAndSetValue (contextId : string) : M Context :=
  data ← makeMap;
  mapAssign data ContextIdKey contextId;;
  mret (WithValue Background ContextDataMapKey (VMap (Some data))).

Definition AppendContextDataAndSetValue (r : positive) (contextId : string)
  : M positive :=
  data ← makeMap;
  mapAssign data ContextIdKey contextId;;
  parent ← Request_Context r;
  Request_WithContext r (WithValue parent ContextDataMapKey (VMap (Some data))).

Definition SetContextDataAndSetValue (r : positive) (data : option positive)
    (contextId : string) : M positive :=
  data ← match data with
         | None => makeMap
         | Some ref => mret ref
         end;
  mapAssign data ContextIdKey contextId;;
  parent ← Request_Context r;
  Request_WithContext r (WithValue parent ContextDataMapKey (VMap (Some data))).

Definition CreateResponseWrapper {S} (rw : S) : LoggingResponseWriter S :=
  {| Status := 0; Body := ""; ResponseWriter := rw |}.

Definition GetEntry (l : Log) : Entry := entry l.

(** *** The caller resolver *)

(** What the runtime shows during one call of [getCaller]: the stack seen
    from inside the function handed to [callerInitOnce.Do], and the stack
    seen from the body of [getCaller]. *)
Record Stacks := { onceStack : list Frame; callerStack : list Frame }.

(** [callerInitOnce.Do(func() { ... })] *)
Definition callerInit (st : Stacks) : M unit := fun σ =>
  if callerInitOnce σ then Some (tt, σ)
  else
    let frames := Callers 1 2 (onceStack st) in
    let '(frame, _, _) := Next frames in
    Some (tt, {| maps := maps σ; requests := requests σ; bodies := bodies σ;
                 callerInitOnce := true;
                 minimumCallerDepth := knownLogFrames;
                 thisPackageName := getPackageName (Function frame) |}).

(** [for f, again := frames.Next(); again; f, again = frames.Next()] *)
Fixpoint callerLoop (this : string) (frames : list Frame) : option Frame :=
  match frames with
  | [] => None
  | f :: rest =>
      let '(_, again, _) := Next frames in
      if again then
        if decide (getPackageName (Function f) = this)
        then callerLoop this rest
        else Some f
      else None
  end.

Definition getCaller (st : Stacks) : M (option Frame) :=
  callerInit st;;
  depth ← gets minimumCallerDepth;
  this ← gets thisPackageName;
  let frames := Callers depth maximumCallerDepth (callerStack st) in
  mret (callerLoop this frames).

(** [fmt.Sprintf("%s:%d", file, line)] *)
Definition fileLine (file : string) (line : Z) : string :=
  file +:+ ":" +:+ pretty line.

Definition setCaller (lp : LogParams) (caller : option Frame) : LogParams :=
  match caller with
  | None => lp
  | Some caller =>
      let funcVal := Function caller in
      let fileVal := fileLine (File caller) (Line caller) in
      let lp :=
        if decide (funcVal = "") then lp
        else {| fields := <["func" := VString funcVal]> (fields lp) |} in
      if decide (fileVal = "") then lp
      else {| fields := <["file" := VString fileVal]> (fields lp) |}
  end.

Definition setCallStackTrace (lp : LogParams) (logLevel : Level) (st : Stacks)
  : M LogParams :=
  if (logLevel <=? ErrorLevel)%N
  then caller ← getCaller st; mret (setCaller lp caller)
  else mret lp.

(** *** The field accumulator *)

Definition injectContextDataMap (lp : LogParams) (c : Context) : M LogParams :=
  match Value c ContextDataMapKey with
  | VMap (Some ref) =>
      data ← readMap ref;
      mret {| fields :=
        map_fold (fun key value acc => <[key := VString value]> acc)
          (fields lp) data |}
  | _ => mret lp
  end.

Definition injectURLPath (lp : LogParams) (r : positive) : M LogParams :=
  req ← readRequest r;
  mret {| fields :=
    <[PathKey := VString (http.Host req +:+ http.URLPath req)]> (fields lp) |}.

(** [fmt.Sprintf("%q", r.Body)] on the restored body: a one-field struct
    around a buffer, printed as the quoted unread bytes between braces. *)
Definition sprintfBody `{Strconv} (buf : list Byte.byte) : string :=
  "{" +:+ Quote (io.BufferString buf) +:+ "}".

Definition injectRequestBody `{Strconv} (lp : LogParams) (r : positive)
  : M LogParams :=
  req ← readRequest r;
  match http.Body req with
  | None => panic
  | Some body =>
      '(buf, _) ← readAllBody body;
      closeBody body;;
      restored ← newNopCloser buf;
      writeRequest r (setBody (Some restored) req);;
      mret {| fields := <[RequestKey := VString (sprintfBody buf)]> (fields lp) |}
  end.

Definition injectResponseBody {S} (lp : LogParams) (rw : LoggingResponseWriter S)
  : LogParams :=
  {| fields :=
      <[ResponseKey := VString (Body rw)]>
        (<[ResponseCodeKey := VInt (Status rw)]> (fields lp)) |}.

(** *** The response capture wrapper *)

Definition WriteHeader {S} `{!http.ResponseWriter S} (code : Z)
    (w : LoggingResponseWriter S) : LoggingResponseWriter S :=
  {| Status := code; Body := Body w;
     ResponseWriter := http.ResponseWriter_WriteHeader code (ResponseWriter w) |}.

Definition Write {S} `{!http.ResponseWriter S} (body : list Byte.byte)
    (w : LoggingResponseWriter S)
  : (Z * option string) * LoggingResponseWriter S :=
  let '(res, sink) := http.ResponseWriter_Write body (ResponseWriter w) in
  (res, {| Status := Status w; Body := String.string_of_list_byte body;
           ResponseWriter := sink |}).

(** *** The leveled operations *)

Definition newLogParams : LogParams := {| fields := ∅ |}.

Definition Infof (l : Log) (st : Stacks) (c : Context)
    (message : string) (args : list Any) : M Emitted :=
  lp ← setCallStackTrace newLogParams InfoLevel st;
  lp ← injectContextDataMap lp c;
  mret (logrus.Log (WithFields (entry l) (fields lp)) InfoLevel (Printf message args)).

Definition Warnf (l : Log) (st : Stacks) (c : Context)
    (message : string) (args : list Any) : M Emitted :=
  lp ← setCallStackTrace newLogParams WarnLevel st;
  lp ← injectContextDataMap lp c;
  mret (logrus.Log (WithFields (entry l) (fields lp)) WarnLevel (Printf message args)).

Definition Errorf (l : Log) (st : Stacks) (c : Context)
    (message : string) (args : list Any) : M Emitted :=
  lp ← setCallStackTrace newLogParams ErrorLevel st;
  lp ← injectContextDataMap lp c;
  mret (logrus.Log (WithFields (entry l) (fields lp)) ErrorLevel (Printf message args)).

Definition Debugf (l : Log) (st : Stacks) (c : Context)
    (message : string) (args : list Any) : M Emitted :=
  lp ← setCallStackTrace newLogParams DebugLevel st;
  lp ← injectContextDataMap lp c;
  mret (logrus.Log (WithFields (entry l) (fields lp)) DebugLevel (Printf message args)).

Definition Fatalf (l : Log) (st : Stacks) (c : Context)
    (message : string) (args : list Any) : M Emitted :=
  lp ← setCallStackTrace newLogParams FatalLevel st;
  lp ← injectContextDataMap lp c;
  mret (logrus.Log (WithFields (entry l) (fields lp)) FatalLevel (Printf message args)).

Definition Info (l : Log) (st : Stacks) (c : Context) (args : list Any)
  : M Emitted :=
  lp ← setCallStackTrace newLogParams InfoLevel st;
  lp ← injectContextDataMap lp c;
  mret (logrus.Log (WithFields (entry l) (fields lp)) InfoLevel (Print args)).

Definition Warn (l : Log) (st : Stacks) (c : Context) (args : list Any)
  : M Emitted :=
  lp ← setCallStackTrace newLogParams WarnLevel st;
  lp ← injectContextDataMap lp c;
  mret (logrus.Log (WithFields (entry l) (fields lp)) WarnLevel (Print args)).

Definition Error (l : Log) (st : Stacks) (c : Context) (args : list Any)
  : M Emitted :=
  lp ← setCallStackTrace newLogParams ErrorLevel st;
  lp ← injectContextDataMap lp c;
  mret (logrus.Log (WithFields (entry l) (fields lp)) ErrorLevel (Print args)).

Definition Debug (l : Log) (st : Stacks) (c : Context) (args : list Any)
  : M Emitted :=
  lp ← setCallStackTrace newLogParams DebugLevel st;
  lp ← injectContextDataMap lp c;
  mret (logrus.Log (WithFields (entry l) (fields lp)) DebugLevel (Print args)).

Definition Fatal (l : Log) (st : Stacks) (c : Context) (args : list Any)
  : M Emitted :=
  lp ← setCallStackTrace newLogParams FatalLevel st;
  lp ← injectContextDataMap lp c;
  mret (logrus.Log (WithFields (entry l) (fields lp)) FatalLevel (Print args)).

(** [dataMap] is [None] for the nil map. *)
Definition InfoMap (l : Log) (st : Stacks) (c : Context)
    (dataMap : option (gmap string Any)) (args : list Any) : M Emitted :=
  lp ← setCallStackTrace newLogParams InfoLevel st;
  lp ← injectContextDataMap lp c;
  let lp :=
    match dataMap with
    | Some dataMap => {| fields := rangeAssign dataMap (fields lp) |}
    | None => lp
    end in
  mret (logrus.Log (WithFields (entry l) (fields lp)) InfoLevel (Print args)).

Definition LogRequest `{Strconv} (l : Log) (st : Stacks) (c : Context)
    (r : positive) : M Emitted :=
  lp ← setCallStackTrace newLogParams InfoLevel st;
  lp ← injectContextDataMap lp c;
  lp ← injectURLPath lp r;
  lp ← injectRequestBody lp r;
  mret (logrus.Log (WithFields (entry l) (fields lp)) InfoLevel
          (Print [VString "Request Body"])).

Definition LogResponse {S} (l : Log) (st : Stacks) (c : Context)
    (rw : LoggingResponseWriter S) : M Emitted :=
  lp ← setCallStackTrace newLogParams InfoLevel st;
  lp ← injectContextDataMap lp c;
  let lp := injectResponseBody lp rw in
  mret (logrus.Log (WithFields (entry l) (fields lp)) InfoLevel
          (Print [VString "Response Body"])).

(** ** Observations used in the statements *)

(** The data map a lookup on the context returns, if it returns one. *)
Definition contextDataMap (σ : State) (c : Context) : option (gmap string string) :=
  match Value c ContextDataMapKey with
  | VMap (Some ref) => maps σ !! ref
  | _ => None
  end.

(** The fields the context contributes to a record: those of its data
    map, none when the context carries no (or a nil, or a foreign) value;
    undefined only for a reference that is not in the heap. *)
Definition contextFields (σ : State) (c : Context) : option (gmap string Any) :=
  match Value c ContextDataMapKey with
  | VMap (Some ref) =>
      match maps σ !! ref with
      | Some data => Some (VString <$> data)
      | None => None
      end
  | _ => Some ∅
  end.

(** The package state once [callerInitOnce.Do] has returned. *)
Definition afterCallerInit (st : Stacks) (σ : State) : State :=
  if callerInitOnce σ then σ
  else
    {| maps := maps σ; requests := requests σ; bodies := bodies σ;
       callerInitOnce := true;
       minimumCallerDepth := knownLogFrames;
       thisPackageName :=
         getPackageName (Function (Next (Callers 1 2 (onceStack st))).1.1) |}.

(** The frames [getCaller] asks the runtime for. *)
Definition callerWindow (st : Stacks) (σ : State) : list Frame :=
  Callers (minimumCallerDepth (afterCallerInit st σ)) maximumCallerDepth
    (callerStack st).

(** The frame [getCaller] returns. *)
Definition resolvedCaller (st : Stacks) (σ : State) : option Frame :=
  callerLoop (thisPackageName (afterCallerInit st σ)) (callerWindow st σ).

(** The fields a resolved caller contributes. *)
Definition callerFields (caller : option Frame) : gmap string Any :=
  fields (setCaller newLogParams caller).

(** The fields of a record: the call-specific fields over the context
    fields over the caller fields over the base fields of the entry. *)
Definition mergedFields (extras cf callerFs base : gmap string Any)
  : gmap string Any :=
  (extras ∪ (cf ∪ callerFs)) ∪ base.

(** The state LogRequest leaves, with the address of the new stream: the
    stream of the request read to its end and closed, the bytes it gave
    in a new buffer stream, and that stream on the request. *)
Definition bodyRestored (r : positive) (req : http.Request) (b : positive)
    (s : io.Stream) (σ : State) : positive * State :=
  let drainedBodies := <[b := io.afterClose (io.afterRead s)]> (bodies σ) in
  let b' := fresh (dom drainedBodies) in
  (b',
   setRequests (<[r := setBody (Some b') req]> (requests σ))
     (setBodies (<[b' := io.bufferStream (io.readResult s).1]> drainedBodies) σ)).

(** The state a derivation leaves: the data map stored at [ref], the
    derived request at a fresh address. *)
Definition derived (r : positive) (req : http.Request) (ref : positive)
    (m : gmap string string) (σ : State) : positive * State :=
  let r' := fresh (dom (requests σ)) in
  (r',
   setRequests
     (<[r' := setCtx (WithValue (http.ctx req) ContextDataMapKey
                        (VMap (Some ref))) req]> (requests σ))
     (setMaps (<[ref := m]> (maps σ)) σ)).

(** ** Scenarios: a sequence of writes, a recording sink, a quoting function *)

(** A sequence of body writes through the wrapper, with the results each
    write returns. *)
Fixpoint writeBodies {S} `{!http.ResponseWriter S} (bodies : list (list Byte.byte))
    (w : LoggingResponseWriter S)
  : list (Z * option string) * LoggingResponseWriter S :=
  match bodies with
  | [] => ([], w)
  | body :: rest =>
      let '(res, w) := Write body w in
      let '(results, w) := writeBodies rest w in
      (res :: results, w)
  end.

(** The same sequence written to the sink itself. *)
Fixpoint sinkWriteBodies {S} `{!http.ResponseWriter S}
    (bodies : list (list Byte.byte)) (sink : S)
  : list (Z * option string) * S :=
  match bodies with
  | [] => ([], sink)
  | body :: rest =>
      let '(res, sink) := http.ResponseWriter_Write body sink in
      let '(results, sink) := sinkWriteBodies rest sink in
      (res :: results, sink)
  end.

(** A sink that records what it is sent. *)
Inductive SinkEvent :=
| HeaderSent (code : Z)
| BytesSent (bytes : list Byte.byte).

#[global] Instance recordingSink : http.ResponseWriter (list SinkEvent) :=
  {| http.ResponseWriter_WriteHeader code sink := sink ++ [HeaderSent code];
     http.ResponseWriter_Write body sink :=
       ((Z.of_nat (length body), None), sink ++ [BytesSent body]) |}.

(** A quoting function to run the example with. *)
Definition quoteMark : string := String (Ascii.ascii_of_nat 34) "".

Definition quoteAscii : Strconv := fun s => quoteMark +:+ s +:+ quoteMark.

(** ** Sample inputs *)

Module Example.

Definition internal (fn : string) (line : Z) : Frame :=
  {| Function := "github.com/muhammad-fakhri/log." +:+ fn;
     File := "/go/pkg/mod/github.com/muhammad-fakhri/log/logger.go";
     Line := line |}.

Definition external (fn : string) (file : string) (line : Z) : Frame :=
  {| Function := fn; File := file; Line := line |}.

Definition handler : Frame := external "main.handler" "/app/main.go" 42.

Definition outer : list Frame :=
  [ handler;
    external "main.main" "/app/main.go" 12;
    external "runtime.goexit" "/usr/local/go/src/runtime/asm_amd64.s" 1650 ].

(** The stacks of a call of the method [method] made by [main.handler]. *)
Definition stacks (method : string) : Stacks :=
  {| onceStack :=
       [ external "runtime.Callers" "/usr/local/go/src/runtime/extern.go" 331;
         internal "getCaller.func1" 346;
         external "sync.(*Once).doSlow" "/usr/local/go/src/sync/once.go" 78;
         external "sync.(*Once).Do" "/usr/local/go/src/sync/once.go" 69;
         internal "getCaller" 343;
         internal "(*LogParams).setCallStackTrace" 270;
         internal method 200 ] ++ outer;
     callerStack :=
       [ external "runtime.Callers" "/usr/local/go/src/runtime/extern.go" 331;
         internal "getCaller" 357;
         internal "(*LogParams).setCallStackTrace" 270;
         internal method 200 ] ++ outer |}.

(** A call buried under thirty frames of the package itself. *)
Definition deepStacks : Stacks :=
  {| onceStack := onceStack (stacks "(*Log).Error");
     callerStack :=
       [ external "runtime.Callers" "/usr/local/go/src/runtime/extern.go" 331;
         internal "getCaller" 357;
         internal "(*LogParams).setCallStackTrace" 270 ]
       ++ replicate 30 (internal "(*Log).Error" 220) ++ outer |}.

(** A heap with one data map, bound in the context of one request. *)
Definition dataCtx : Context :=
  WithValue Background ContextDataMapKey (VMap (Some 1%positive)).

(** The body of the request: two chunks, not yet read. *)
Definition body : io.Stream :=
  {| io.unread := io.Chunk ["a"%byte; "b"%byte] (io.Chunk ["c"%byte] io.EOF);
     io.closed := false; io.nopCloser := false |}.

Definition request : http.Request :=
  {| http.Host := "example.org"; http.URLPath := "/orders";
     http.Body := Some 1%positive;
     http.ctx := dataCtx |}.

Definition state : State :=
  {| maps := {[ 1%positive := {[ "context_id" := "req-42"; "file" := "F2" ]} ]};
     requests := {[ 1%positive := request ]};
     bodies := {[ 1%positive := body ]};
     callerInitOnce := false;
     minimumCallerDepth := 1;
     thisPackageName := "" |}.

Definition dataFields : gmap string Any :=
  {[ "context_id" := VString "req-42"; "file" := VString "F2" ]}.

End Example.

Module Example2.

(** A caller-supplied map without a correlation id, and a request whose
    context does not bind it. *)
Definition extra : gmap string string := {[ "tenant" := "acme" ]}.

Definition state : State :=
  {| maps := {[ 1%positive := {[ "context_id" := "req-42"; "file" := "F2" ]};
                2%positive := extra ]};
     requests := {[ 1%positive := Example.request ]};
     bodies := {[ 1%positive := Example.body ]};
     callerInitOnce := false;
     minimumCallerDepth := 1;
     thisPackageName := "" |}.

End Example2.

(** ** Further definitions used in the statements *)

(** The part of a string before the first occurrence of a byte (the whole
    string when the byte does not occur). *)
Fixpoint untilByte (c : ascii) (s : string) : string :=
  match s with
  | EmptyString => EmptyString
  | String a s' => if Ascii.eqb a c then EmptyString else String a (untilByte c s')
  end.

(** The correlation id a lookup through the request [r] returns. *)
Definition requestContextId (r : positive) : M (option contextData) :=
  c ← Request_Context r; getContextData c.

(** The calls a handler makes on the wrapper, in any order. *)
Inductive WriterCall :=
| CallWriteHeader (code : Z)
| CallWrite (body : list Byte.byte).

Fixpoint runCalls {S} `{!http.ResponseWriter S} (calls : list WriterCall)
    (w : LoggingResponseWriter S) : LoggingResponseWriter S :=
  match calls with
  | [] => w
  | CallWriteHeader code :: rest => runCalls rest (WriteHeader code w)
  | CallWrite body :: rest => runCalls rest (Write body w).2
  end.

(** The same calls made on the sink itself. *)
Fixpoint sinkRunCalls {S} `{!http.ResponseWriter S} (calls : list WriterCall)
    (sink : S) : S :=
  match calls with
  | [] => sink
  | CallWriteHeader code :: rest =>
      sinkRunCalls rest (http.ResponseWriter_WriteHeader code sink)
  | CallWrite body :: rest =>
      sinkRunCalls rest (http.ResponseWriter_Write body sink).2
  end.

Definition codesWritten (calls : list WriterCall) : list Z :=
  omap (fun call => match call with
                    | CallWriteHeader code => Some code
                    | CallWrite _ => None
                    end) calls.

Definition bodiesWritten (calls : list WriterCall) : list (list Byte.byte) :=
  omap (fun call => match call with
                    | CallWriteHeader _ => None
                    | CallWrite body => Some body
                    end) calls.

(** * Properties *)

(** ** The package name *)

Example getPackageName_method :
  getPackageName "github.com/muhammad-fakhri/log.(*Log).Error"
  = "github.com/muhammad-fakhri/log".
Proof. vm_compute. reflexivity. Qed.

(** The loop equation: one test, then either another round or the result. *)
Lemma getPackageName_loop f :
  getPackageName f =
  if (LastIndex f "/" <? LastIndex f ".")%Z
  then getPackageName (sliceTo f (LastIndex f "."))
  else f.
Proof.
  rewrite getPackageName_equation_1.
  destruct (Z_lt_dec (LastIndex f "/") (LastIndex f ".")) as [H|H]; simpl.
  - apply Z.ltb_lt in H. rewrite H. reflexivity.
  - apply Z.ltb_nlt in H. rewrite H. reflexivity.
Qed.

Lemma substring_all s : String.substring 0 (String.length s) s = s.
Proof. induction s as [|a s IH]; simpl; [reflexivity | f_equal; exact IH]. Qed.

Lemma substring_split n s :
  s = String.substring 0 n s +:+ String.substring n (String.length s - n) s.
Proof.
  revert n. induction s as [|a s IH]; intros [|n].
  - reflexivity.
  - reflexivity.
  - rewrite Nat.sub_0_r, substring_all. destruct s; reflexivity.
  - change (String a s = String a (String.substring 0 n s +:+
      String.substring n (String.length s - n) s)).
    f_equal. apply IH.
Qed.

Lemma sliceTo_sliceFrom s n : s = sliceTo s n +:+ sliceFrom s n.
Proof. apply substring_split. Qed.

Lemma lastIndexFrom_app c p : forall s i acc,
  lastIndexFrom c i acc (p +:+ s) =
  lastIndexFrom c (i + Z.of_nat (String.length p))
    (lastIndexFrom c i acc p) s.
Proof.
  induction p as [|a p IH]; intros s i acc; unfold String.app; simpl.
  - f_equal. lia.
  - fold (String.app p s). rewrite IH. f_equal. lia.
Qed.

Lemma lastIndexFrom_absent c s : forall i acc,
  hasByte c s = false -> lastIndexFrom c i acc s = acc.
Proof.
  induction s as [|a s IH]; intros i acc H; simpl in *; [reflexivity|].
  apply orb_false_iff in H as [Ha Hs]. rewrite Ha. auto.
Qed.

Lemma lastIndexFrom_present c s : forall i acc,
  (acc < i)%Z -> hasByte c s = true -> (i <= lastIndexFrom c i acc s)%Z.
Proof.
  induction s as [|a s IH]; intros i acc Hacc H; simpl in *; [discriminate|].
  destruct (Ascii.eqb a c); simpl in H.
  - pose proof (lastIndexFrom_bounds c s (i + 1) i). lia.
  - specialize (IH (i + 1)%Z acc ltac:(lia) H). lia.
Qed.

(** What the scan finds really is the last occurrence. *)
Lemma lastIndexFrom_found c s : forall i acc,
  (acc < i)%Z -> (i <= lastIndexFrom c i acc s)%Z ->
  exists p seg, s = p +:+ String c seg /\ hasByte c seg = false /\
    lastIndexFrom c i acc s = (i + Z.of_nat (String.length p))%Z.
Proof.
  induction s as [|a s IH]; intros i acc Hacc H; simpl in *; [lia|].
  destruct (hasByte c s) eqn:Hs.
  - destruct (IH (i + 1)%Z (if Ascii.eqb a c then i else acc))
      as (p & seg & -> & Hseg & Hidx).
    + destruct (Ascii.eqb a c); lia.
    + apply lastIndexFrom_present; [destruct (Ascii.eqb a c); lia | exact Hs].
    + exists (String a p), seg. split; [reflexivity|]. split; [exact Hseg|].
      rewrite Hidx. simpl. lia.
  - rewrite lastIndexFrom_absent in H |- * by exact Hs.
    destruct (Ascii.eqb a c) eqn:Ha; [|lia].
    apply Ascii.eqb_eq in Ha. subst a.
    exists EmptyString, s. split; [reflexivity|]. split; [exact Hs|].
    simpl. lia.
Qed.

Lemma LastIndex_found s c :
  (0 <= LastIndex s c)%Z ->
  exists seg, s = sliceTo s (LastIndex s c) +:+ String c seg /\
    hasByte c seg = false.
Proof.
  intros H. unfold LastIndex in *.
  destruct (lastIndexFrom_found c s 0 (-1)) as (p & seg & Hs & Hseg & Hidx);
    [lia | lia |].
  exists seg. split; [|exact Hseg].
  rewrite Hidx. unfold sliceTo. rewrite Z.add_0_l, Nat2Z.id.
  rewrite Hs at 1. f_equal.
  rewrite Hs. clear. induction p as [|a p IH]; simpl; [reflexivity|].
  unfold String.app. simpl. f_equal. exact IH.
Qed.

Lemma sliceTo_app p s : sliceTo (p +:+ s) (Z.of_nat (String.length p)) = p.
Proof.
  unfold sliceTo. rewrite Nat2Z.id.
  induction p as [|a p IH]; simpl.
  - destruct s; reflexivity.
  - unfold String.app. simpl. f_equal. exact IH.
Qed.

Lemma LastIndex_app_sep c p seg :
  hasByte c seg = false ->
  LastIndex (p +:+ String c seg) c = Z.of_nat (String.length p).
Proof.
  intros H. unfold LastIndex. rewrite lastIndexFrom_app. simpl.
  rewrite Ascii.eqb_refl, lastIndexFrom_absent by exact H. reflexivity.
Qed.

Lemma LastIndex_app_other c d p seg :
  Ascii.eqb c d = false ->
  LastIndex (p +:+ String c seg) d =
  lastIndexFrom d (Z.of_nat (String.length p) + 1) (LastIndex p d) seg.
Proof.
  intros H. unfold LastIndex. rewrite lastIndexFrom_app. simpl.
  rewrite H. reflexivity.
Qed.

(** The test of the loop, read on the string: the last period comes after
    the last slash exactly when the string ends in a period followed by a
    segment that holds neither a period nor a slash. *)
Lemma period_after_slash_split f :
  (LastIndex f "/" < LastIndex f ".")%Z ->
  exists seg, f = sliceTo f (LastIndex f ".") +:+ String "." seg /\
    hasByte "." seg = false /\ hasByte "/" seg = false.
Proof.
  intros Hlt. pose proof (LastIndex_bounds f "/") as Hb.
  destruct (LastIndex_found f ".") as (seg & Hf & Hseg); [lia|].
  exists seg. split; [exact Hf|]. split; [exact Hseg|].
  destruct (hasByte "/" seg) eqn:Hslash; [exfalso | reflexivity].
  pose proof (LastIndex_bounds f ".") as Hp.
  set (p := sliceTo f (LastIndex f ".")) in *.
  assert (Hlen : String.length p = Z.to_nat (LastIndex f ".")).
  { apply length_sliceTo. lia. }
  assert (Hs : LastIndex f "/" =
    lastIndexFrom "/" (Z.of_nat (String.length p) + 1) (LastIndex p "/") seg).
  { rewrite Hf at 1. apply LastIndex_app_other. reflexivity. }
  pose proof (LastIndex_bounds p "/").
  pose proof (lastIndexFrom_present "/" seg
    (Z.of_nat (String.length p) + 1) (LastIndex p "/") ltac:(lia) Hslash).
  lia.
Qed.

Lemma split_period_after_slash p seg :
  hasByte "." seg = false -> hasByte "/" seg = false ->
  LastIndex (p +:+ String "." seg) "." = Z.of_nat (String.length p) /\
  (LastIndex (p +:+ String "." seg) "/" < Z.of_nat (String.length p))%Z.
Proof.
  intros Hdot Hslash. split.
  - apply LastIndex_app_sep, Hdot.
  - rewrite LastIndex_app_other by reflexivity.
    rewrite lastIndexFrom_absent by exact Hslash.
    pose proof (LastIndex_bounds p "/"). lia.
Qed.

Lemma getPackageName_strips f : StripsTo f (getPackageName f).
Proof.
  remember (String.length f) as n eqn:Hn.
  revert f Hn. induction (lt_wf n) as [n _ IH]. intros f ->.
  rewrite getPackageName_loop.
  destruct (LastIndex f "/" <? LastIndex f ".")%Z eqn:Hlt.
  - apply Z.ltb_lt in Hlt.
    destruct (period_after_slash_split f Hlt) as (seg & Hf & Hdot & Hslash).
    rewrite Hf at 1. apply StripsTo_cut; [exact Hdot | exact Hslash |].
    eapply IH; [|reflexivity].
    apply sliceTo_LastIndex_shorter.
    pose proof (LastIndex_bounds f "/"). lia.
  - apply Z.ltb_nlt in Hlt. apply StripsTo_stop.
    intros p seg -> Hdot.
    destruct (hasByte "/" seg) eqn:Hslash; [reflexivity | exfalso].
    destruct (split_period_after_slash p seg Hdot Hslash). lia.
Qed.

Lemma StripsTo_getPackageName f r : StripsTo f r -> r = getPackageName f.
Proof.
  induction 1 as [f Hstop | p seg r Hdot Hslash _ IH].
  - rewrite getPackageName_loop.
    destruct (LastIndex f "/" <? LastIndex f ".")%Z eqn:Hlt; [|reflexivity].
    apply Z.ltb_lt in Hlt.
    destruct (period_after_slash_split f Hlt) as (seg & Hf & Hdot & Hslash).
    rewrite (Hstop _ _ Hf Hdot) in Hslash. discriminate.
  - rewrite getPackageName_loop.
    destruct (split_period_after_slash p seg Hdot Hslash) as [Hp Hs].
    rewrite Hp. apply Z.ltb_lt in Hs. rewrite Hs.
    rewrite sliceTo_app. exact IH.
Qed.

(** When the loop stops, no period lies after the last slash. *)
Lemma getPackageName_exit f :
  (LastIndex (getPackageName f) "." <= LastIndex (getPackageName f) "/")%Z.
Proof.
  remember (String.length f) as n eqn:Hn.
  revert f Hn. induction (lt_wf n) as [n _ IH]. intros f ->.
  rewrite getPackageName_loop.
  destruct (LastIndex f "/" <? LastIndex f ".")%Z eqn:Hlt.
  - apply Z.ltb_lt in Hlt. pose proof (LastIndex_bounds f "/").
    exact (IH _ (sliceTo_LastIndex_shorter f "." ltac:(lia)) _ eq_refl).
  - apply Z.ltb_nlt in Hlt. lia.
Qed.

Lemma string_app_assoc (a b c : string) : (a +:+ b) +:+ c = a +:+ (b +:+ c).
Proof.
  induction a as [|x a IH]; [reflexivity|].
  change (String x ((a +:+ b) +:+ c) = String x (a +:+ (b +:+ c))).
  f_equal. exact IH.
Qed.

Lemma string_app_nil_r (a : string) : a +:+ "" = a.
Proof.
  induction a as [|x a IH]; [reflexivity|].
  change (String x (a +:+ "") = String x a). f_equal. exact IH.
Qed.

Lemma getPackageName_is_prefix f : exists s, f = getPackageName f +:+ s.
Proof.
  remember (String.length f) as n eqn:Hn.
  revert f Hn. induction (lt_wf n) as [n _ IH]. intros f ->.
  rewrite getPackageName_loop.
  destruct (LastIndex f "/" <? LastIndex f ".")%Z eqn:Hlt.
  - apply Z.ltb_lt in Hlt. pose proof (LastIndex_bounds f "/").
    destruct (IH _ (sliceTo_LastIndex_shorter f "." ltac:(lia)) _ eq_refl)
      as [s Hs].
    exists (s +:+ sliceFrom f (LastIndex f ".")).
    rewrite <- string_app_assoc, <- Hs. apply sliceTo_sliceFrom.
  - exists EmptyString. symmetry. apply string_app_nil_r.
Qed.

(** ** Ranging over a map *)

Lemma range_fold_lookup {A V} (g : A -> V) (src : gmap string A)
    (dst : gmap string V) (k : string) :
  map_fold (fun key value acc => <[key := g value]> acc) dst src !! k =
  match src !! k with
  | Some v => Some (g v)
  | None => dst !! k
  end.
Proof.
  induction src as [|i x m Hi Hfold IH] using map_first_key_ind.
  - rewrite map_fold_empty, lookup_empty. reflexivity.
  - rewrite map_fold_insert_first_key by assumption.
    destruct (decide (i = k)) as [->|Hne].
    + rewrite !lookup_insert_eq. reflexivity.
    + rewrite !lookup_insert_ne by assumption. exact IH.
Qed.

Lemma rangeAssign_lookup {V} (src dst : gmap string V) k :
  rangeAssign src dst !! k =
  match src !! k with
  | Some v => Some v
  | None => dst !! k
  end.
Proof. apply (range_fold_lookup (fun v => v)). Qed.

Lemma rangeAssign_union {V} (src dst : gmap string V) :
  rangeAssign src dst = src ∪ dst.
Proof.
  apply map_eq. intros k. rewrite rangeAssign_lookup, lookup_union.
  destruct (src !! k), (dst !! k); reflexivity.
Qed.

Lemma range_fold_union (data : gmap string string) (dst : gmap string Any) :
  map_fold (fun key value acc => <[key := VString value]> acc) dst data
  = (VString <$> data) ∪ dst.
Proof.
  apply map_eq. intros k.
  rewrite range_fold_lookup, lookup_union, lookup_fmap.
  destruct (data !! k), (dst !! k); reflexivity.
Qed.

Lemma WithFields_Data e fs : Data (WithFields e fs) = fs ∪ Data e.
Proof.
  unfold WithFields. simpl. rewrite !rangeAssign_union.
  rewrite (right_id_L ∅ (∪)). reflexivity.
Qed.

Lemma NewLogger_Data service :
  Data (entry (NewLogger service)) = {[ "service" := VString service ]}.
Proof.
  unfold NewLogger, WithField. simpl. rewrite !rangeAssign_union.
  rewrite !(right_id_L ∅ (∪)). reflexivity.
Qed.

(** ** The monad *)

Ltac run_monad :=
  unfold mbind, M_bind, mret, M_ret, gets, panic; simpl.

Lemma callerInit_run st σ : callerInit st σ = Some (tt, afterCallerInit st σ).
Proof.
  unfold callerInit, afterCallerInit. destruct (callerInitOnce σ); [reflexivity|].
  destruct (Next (Callers 1 2 (onceStack st))) as [[frame again] rest].
  reflexivity.
Qed.

Lemma afterCallerInit_maps st σ : maps (afterCallerInit st σ) = maps σ.
Proof. unfold afterCallerInit. destruct (callerInitOnce σ); reflexivity. Qed.

Lemma afterCallerInit_requests st σ :
  requests (afterCallerInit st σ) = requests σ.
Proof. unfold afterCallerInit. destruct (callerInitOnce σ); reflexivity. Qed.

Lemma afterCallerInit_depth st σ :
  callerInitOnce σ = false ->
  minimumCallerDepth (afterCallerInit st σ) = knownLogFrames.
Proof. unfold afterCallerInit. intros ->. reflexivity. Qed.

Lemma contextFields_afterCallerInit st σ c :
  contextFields (afterCallerInit st σ) c = contextFields σ c.
Proof. unfold contextFields. rewrite afterCallerInit_maps. reflexivity. Qed.

(** [getCaller] always returns: the result of the loop over the window. *)
Lemma getCaller_run st σ :
  getCaller st σ =
  Some (resolvedCaller st σ, afterCallerInit st σ).
Proof.
  unfold getCaller. run_monad. rewrite callerInit_run. reflexivity.
Qed.

Lemma callerWindow_length st σ :
  (length (callerWindow st σ) <= maximumCallerDepth)%nat.
Proof. unfold callerWindow, Callers. rewrite length_take. lia. Qed.

(** The loop examines every frame of the window but the last one, which
    [Next] hands out together with [again = false]. *)
Lemma callerLoop_examined this frames :
  callerLoop this frames =
  List.find (fun f => bool_decide (getPackageName (Function f) <> this))
    (removelast frames).
Proof.
  induction frames as [|f rest IH]; [reflexivity|].
  destruct rest as [|g rest]; [reflexivity|].
  change (removelast (f :: g :: rest)) with (f :: removelast (g :: rest)).
  change (callerLoop this (f :: g :: rest)) with
    (if decide (getPackageName (Function f) = this)
     then callerLoop this (g :: rest) else Some f).
  rewrite IH.
  set (examined := removelast (g :: rest)).
  change (List.find _ (f :: examined)) with
    (if bool_decide (getPackageName (Function f) <> this) then Some f
     else List.find
       (fun f => bool_decide (getPackageName (Function f) <> this)) examined).
  destruct (decide (getPackageName (Function f) = this)) as [He|Hne].
  - rewrite bool_decide_eq_false_2 by (intros H; apply H, He). reflexivity.
  - rewrite bool_decide_eq_true_2 by exact Hne. reflexivity.
Qed.

Lemma callerLoop_all_internal this frames :
  Forall (fun f => getPackageName (Function f) = this) (removelast frames) ->
  callerLoop this frames = None.
Proof.
  rewrite callerLoop_examined. induction 1 as [|f l Hf _ IH]; [reflexivity|].
  simpl.
  destruct (bool_decide_reflect (getPackageName (Function f) <> this))
    as [Hne|_]; [contradiction | exact IH].
Qed.

Lemma callerLoop_Some this frames f :
  callerLoop this frames = Some f ->
  f ∈ removelast frames /\ getPackageName (Function f) <> this.
Proof.
  rewrite callerLoop_examined. intros H.
  apply List.find_some in H as [Hin Hd].
  split; [apply list_elem_of_In, Hin | exact (bool_decide_eq_true_1 _ Hd)].
Qed.

(** ** [setCaller] *)

Lemma fileLine_nonempty file line : fileLine file line <> "".
Proof.
  unfold fileLine. destruct file; discriminate.
Qed.

Lemma setCaller_None lp : setCaller lp None = lp.
Proof. reflexivity. Qed.

Lemma setCaller_Some lp f :
  fields (setCaller lp (Some f)) =
  <["file" := VString (fileLine (File f) (Line f))]>
    (if decide (Function f = "") then fields lp
     else <["func" := VString (Function f)]> (fields lp)).
Proof.
  unfold setCaller.
  destruct (decide (fileLine (File f) (Line f) = "")) as [H|_].
  - destruct (fileLine_nonempty _ _ H).
  - destruct (decide (Function f = "")); reflexivity.
Qed.

Lemma callerFields_None : callerFields None = ∅.
Proof. reflexivity. Qed.

Lemma callerFields_file f :
  callerFields (Some f) !! "file" = Some (VString (fileLine (File f) (Line f))).
Proof. unfold callerFields. rewrite setCaller_Some. apply lookup_insert_eq. Qed.

Lemma callerFields_func f :
  Function f <> "" ->
  callerFields (Some f) !! "func" = Some (VString (Function f)).
Proof.
  intros H. unfold callerFields. rewrite setCaller_Some.
  rewrite lookup_insert_ne by discriminate.
  destruct (decide (Function f = "")); [contradiction|].
  apply lookup_insert_eq.
Qed.

Lemma callerFields_other caller k :
  k <> "func" -> k <> "file" -> callerFields caller !! k = None.
Proof.
  intros Hfunc Hfile. destruct caller as [f|]; [|apply lookup_empty].
  unfold callerFields. rewrite setCaller_Some.
  rewrite lookup_insert_ne by congruence.
  destruct (decide (Function f = "")); simpl.
  - apply lookup_empty.
  - rewrite lookup_insert_ne by congruence. apply lookup_empty.
Qed.

(** ** The steps of a log call *)

Lemma setCallStackTrace_resolves lp lvl st σ :
  (lvl <=? ErrorLevel)%N = true ->
  setCallStackTrace lp lvl st σ =
  Some (setCaller lp (resolvedCaller st σ), afterCallerInit st σ).
Proof.
  intros H. unfold setCallStackTrace. rewrite H. run_monad.
  rewrite getCaller_run. reflexivity.
Qed.

Lemma setCallStackTrace_skips lp lvl st σ :
  (lvl <=? ErrorLevel)%N = false ->
  setCallStackTrace lp lvl st σ = Some (lp, σ).
Proof. intros H. unfold setCallStackTrace. rewrite H. reflexivity. Qed.

Lemma injectContextDataMap_run lp c σ cf :
  contextFields σ c = Some cf ->
  injectContextDataMap lp c σ = Some ({| fields := cf ∪ fields lp |}, σ).
Proof.
  unfold contextFields, injectContextDataMap. intros H.
  destruct (Value c ContextDataMapKey) as [|[ref|]|ty].
  - injection H as <-. rewrite (left_id_L ∅ (∪)). destruct lp; reflexivity.
  - run_monad. unfold readMap. destruct (maps σ !! ref) as [data|]; [|discriminate].
    injection H as <-. rewrite range_fold_union. reflexivity.
  - injection H as <-. rewrite (left_id_L ∅ (∪)). destruct lp; reflexivity.
  - injection H as <-. rewrite (left_id_L ∅ (∪)). destruct lp; reflexivity.
Qed.

(** The shape every leveled operation has: caller step, context step,
    hand-over. *)
Lemma leveled_run l st c σ cf lvl msg :
  contextFields σ c = Some cf ->
  (lp ← setCallStackTrace newLogParams lvl st;
   lp ← injectContextDataMap lp c;
   mret (logrus.Log (WithFields (entry l) (fields lp)) lvl msg)) σ =
  if (lvl <=? ErrorLevel)%N
  then Some ({| level := lvl;
                data := (cf ∪ callerFields (resolvedCaller st σ)) ∪ Data (entry l);
                message := msg |}, afterCallerInit st σ)
  else Some ({| level := lvl; data := cf ∪ Data (entry l); message := msg |}, σ).
Proof.
  intros Hcf. unfold mbind at 1, M_bind at 1.
  destruct (lvl <=? ErrorLevel)%N eqn:Hlvl.
  - rewrite setCallStackTrace_resolves by exact Hlvl.
    unfold mbind, M_bind.
    rewrite (injectContextDataMap_run _ c _ cf)
      by (rewrite contextFields_afterCallerInit; exact Hcf).
    unfold mret, M_ret, logrus.Log. rewrite WithFields_Data. reflexivity.
  - rewrite setCallStackTrace_skips by exact Hlvl.
    unfold mbind, M_bind.
    rewrite (injectContextDataMap_run _ c _ cf) by exact Hcf.
    unfold mret, M_ret, logrus.Log. rewrite WithFields_Data. simpl.
    rewrite (right_id_L ∅ (∪)). reflexivity.
Qed.

(** ** Caller resolution by severity (C1) *)

(** C1, as stated, fails for Warn: on a stack where the resolver would find
    the calling frame, the record of a Warn call carries neither [func]
    nor [file]. *)
Lemma C1_warn_record_has_no_caller_fields :
  let st := Example.stacks "(*Log).Warn" in
  fst <$> getCaller st initialState = Some (Some Example.handler) /\
  (fun r => (data r.1 !! "func", data r.1 !! "file")) <$>
    Warn (NewLogger "svc") st Background [] initialState
  = Some (None, None).
Proof. split; reflexivity. Qed.

(** C1, amended: Error, Errorf, Fatal and Fatalf resolve the caller and,
    when a frame is found, attach [file] and (for a frame with a function
    name) [func]; Warn, Warnf, Info, Infof, Debug and Debugf skip the
    resolver, leave the package state alone, and hand over the context
    fields and the base fields only. *)
Theorem C1_caller_fields_by_level l st c message args σ cf :
  contextFields σ c = Some cf ->
  let caller := resolvedCaller st σ in
  let attributed lvl msg :=
    Some ({| level := lvl;
             data := (cf ∪ callerFields caller) ∪ Data (entry l);
             message := msg |}, afterCallerInit st σ) in
  let plain lvl msg :=
    Some ({| level := lvl; data := cf ∪ Data (entry l); message := msg |}, σ) in
  getCaller st σ = Some (caller, afterCallerInit st σ) /\
  Error l st c args σ = attributed ErrorLevel (Print args) /\
  Errorf l st c message args σ = attributed ErrorLevel (Printf message args) /\
  Fatal l st c args σ = attributed FatalLevel (Print args) /\
  Fatalf l st c message args σ = attributed FatalLevel (Printf message args) /\
  (forall f, caller = Some f ->
     callerFields caller !! "file" = Some (VString (fileLine (File f) (Line f))) /\
     is_Some (((cf ∪ callerFields caller) ∪ Data (entry l)) !! "file") /\
     (Function f <> "" ->
        callerFields caller !! "func" = Some (VString (Function f)) /\
        is_Some (((cf ∪ callerFields caller) ∪ Data (entry l)) !! "func"))) /\
  Warn l st c args σ = plain WarnLevel (Print args) /\
  Warnf l st c message args σ = plain WarnLevel (Printf message args) /\
  Info l st c args σ = plain InfoLevel (Print args) /\
  Infof l st c message args σ = plain InfoLevel (Printf message args) /\
  Debug l st c args σ = plain DebugLevel (Print args) /\
  Debugf l st c message args σ = plain DebugLevel (Printf message args) /\
  (forall k, cf !! k = None -> Data (entry l) !! k = None ->
     (cf ∪ Data (entry l)) !! k = None).
Proof.
  intros Hcf caller attributed plain.
  split; [apply getCaller_run|].
  do 4 (split; [exact (leveled_run l st c σ cf _ _ Hcf)|]).
  split.
  { intros f Hf. rewrite Hf.
    assert (Hfile := callerFields_file f).
    split; [exact Hfile|]. split.
    - destruct (cf !! "file") as [v|] eqn:Hc.
      + exists v. apply lookup_union_Some_l, lookup_union_Some_l, Hc.
      + eexists. apply lookup_union_Some_l.
        rewrite lookup_union_r by exact Hc. exact Hfile.
    - intros Hne. assert (Hfunc := callerFields_func f Hne).
      split; [exact Hfunc|].
      destruct (cf !! "func") as [v|] eqn:Hc.
      + exists v. apply lookup_union_Some_l, lookup_union_Some_l, Hc.
      + eexists. apply lookup_union_Some_l.
        rewrite lookup_union_r by exact Hc. exact Hfunc. }
  do 6 (split; [exact (leveled_run l st c σ cf _ _ Hcf)|]).
  intros k Hc Hd. apply lookup_union_None. split; assumption.
Qed.

Lemma C1_caller_fields_by_level_witness :
  contextFields Example.state Example.dataCtx = Some Example.dataFields /\
  Error (NewLogger "svc") (Example.stacks "(*Log).Error") Example.dataCtx []
    Example.state =
  Some ({| level := ErrorLevel;
           data := (Example.dataFields ∪
                    callerFields (resolvedCaller
                      (Example.stacks "(*Log).Error") Example.state))
                   ∪ Data (entry (NewLogger "svc"));
           message := Print [] |},
        afterCallerInit (Example.stacks "(*Log).Error") Example.state).
Proof.
  split; [reflexivity|].
  apply (C1_caller_fields_by_level (NewLogger "svc")
           (Example.stacks "(*Log).Error") Example.dataCtx "" []
           Example.state Example.dataFields).
  reflexivity.
Defined.

(** ** No caller found (C6) *)

(** C6: [getCaller] never asks for more than 25 frames, always returns,
    and returns nil when every frame it examines belongs to the package,
    whatever lies deeper in the stack; [setCaller] then leaves the fields
    alone, so the record of an Error or Fatal call carries the context
    fields and the base fields only. *)
Theorem C6_no_caller_found l st c message args σ cf :
  contextFields σ c = Some cf ->
  Forall (fun f =>
            getPackageName (Function f) = thisPackageName (afterCallerInit st σ))
         (removelast (callerWindow st σ)) ->
  let plain lvl msg :=
    Some ({| level := lvl; data := cf ∪ Data (entry l); message := msg |},
          afterCallerInit st σ) in
  (length (callerWindow st σ) <= 25)%nat /\
  callerWindow st σ =
    take 25 (drop (minimumCallerDepth (afterCallerInit st σ)) (callerStack st)) /\
  getCaller st σ = Some (None, afterCallerInit st σ) /\
  (forall lp, setCaller lp None = lp) /\
  Error l st c args σ = plain ErrorLevel (Print args) /\
  Errorf l st c message args σ = plain ErrorLevel (Printf message args) /\
  Fatal l st c args σ = plain FatalLevel (Print args) /\
  Fatalf l st c message args σ = plain FatalLevel (Printf message args) /\
  (forall k, cf !! k = None -> Data (entry l) !! k = None ->
     (cf ∪ Data (entry l)) !! k = None).
Proof.
  intros Hcf Hall plain.
  assert (Hnone : resolvedCaller st σ = None)
    by (apply callerLoop_all_internal, Hall).
  split; [apply callerWindow_length|].
  split; [reflexivity|].
  split; [rewrite getCaller_run, Hnone; reflexivity|].
  split; [reflexivity|].
  assert (Hrun : forall lvl msg, (lvl <=? ErrorLevel)%N = true ->
    (lp ← setCallStackTrace newLogParams lvl st;
     lp ← injectContextDataMap lp c;
     mret (logrus.Log (WithFields (entry l) (fields lp)) lvl msg)) σ
    = plain lvl msg).
  { intros lvl msg Hlvl. rewrite (leveled_run l st c σ cf lvl msg Hcf), Hlvl.
    rewrite Hnone, callerFields_None, (right_id_L ∅ (∪)). reflexivity. }
  do 4 (split; [apply Hrun; reflexivity|]).
  intros k Hc Hd. apply lookup_union_None. split; assumption.
Qed.

Lemma C6_no_caller_found_witness :
  getCaller Example.deepStacks Example.state =
    Some (None, afterCallerInit Example.deepStacks Example.state) /\
  In Example.handler (callerStack Example.deepStacks).
Proof.
  split.
  - apply (C6_no_caller_found (NewLogger "svc") Example.deepStacks
             Example.dataCtx "" [] Example.state Example.dataFields).
    + reflexivity.
    + apply (bool_decide_unpack _). vm_compute. exact I.
  - vm_compute. tauto.
Defined.

(** ** Building a context (C8) *)

Lemma Value_WithValue_eq parent key val :
  Value (WithValue parent key val) key = val.
Proof. simpl. rewrite decide_True by reflexivity. reflexivity. Qed.

Lemma makeMap_assign_run key value σ :
  let ref := fresh (dom (maps σ)) in
  (data ← makeMap; mapAssign data key value;; mret data) σ =
  Some (ref, setMaps (<[ref := {[ key := value ]}]> (maps σ)) σ).
Proof.
  intros ref. run_monad. unfold mapAssign. simpl.
  rewrite lookup_insert_eq. unfold setMaps. simpl.
  rewrite insert_insert_eq. reflexivity.
Qed.

Lemma fresh_map_ref (σ : State) : maps σ !! fresh (dom (maps σ)) = None.
Proof. apply not_elem_of_dom, is_fresh. Qed.

Lemma BuildContextDataAndSetValue_run contextId σ :
  let ref := fresh (dom (maps σ)) in
  BuildContextDataAndSetValue contextId σ =
  Some (WithValue Background ContextDataMapKey (VMap (Some ref)),
        setMaps (<[ref := {[ ContextIdKey := contextId ]}]> (maps σ)) σ).
Proof.
  intros ref. unfold BuildContextDataAndSetValue. run_monad.
  unfold mapAssign. simpl. rewrite lookup_insert_eq. unfold setMaps. simpl.
  rewrite insert_insert_eq. reflexivity.
Qed.

(** C8: the context built for a correlation id carries a data map with the
    single entry [context_id], the lookup of the correlation id returns
    it, and an Info call with that context hands over a record that holds
    [context_id] and neither [func] nor [file]. *)
Theorem C8_build_context_then_info s σ :
  exists c σ',
    BuildContextDataAndSetValue s σ = Some (c, σ') /\
    contextDataMap σ' c = Some {[ "context_id" := s ]} /\
    getContextData c σ' = Some (Some {| contextId := s |}, σ') /\
    (forall ref, is_Some (maps σ !! ref) -> maps σ' !! ref = maps σ !! ref) /\
    requests σ' = requests σ /\
    forall service st args, exists e,
      Info (NewLogger service) st c args σ' = Some (e, σ') /\
      level e = InfoLevel /\
      data e = {[ "context_id" := VString s ]} ∪ {[ "service" := VString service ]} /\
      data e !! "context_id" = Some (VString s) /\
      data e !! "func" = None /\
      data e !! "file" = None.
Proof.
  eexists _, _. split; [apply BuildContextDataAndSetValue_run|].
  set (ref := fresh (dom (maps σ))).
  set (σ' := setMaps _ σ).
  assert (Hmap : maps σ' !! ref = Some {[ ContextIdKey := s ]})
    by apply lookup_insert_eq.
  split; [unfold contextDataMap; rewrite Value_WithValue_eq; exact Hmap|].
  split.
  { unfold getContextData. rewrite Value_WithValue_eq.
    unfold mbind, M_bind, readMap. rewrite Hmap.
    unfold mapIndex. rewrite lookup_singleton_eq. reflexivity. }
  split.
  { intros r [m Hm]. simpl. apply lookup_insert_ne. intros <-.
    pose proof (fresh_map_ref σ) as Hfresh. fold ref in Hfresh. congruence. }
  split; [reflexivity|].
  intros service st args.
  assert (Hcf : contextFields σ' (WithValue Background ContextDataMapKey
                  (VMap (Some ref))) = Some {[ "context_id" := VString s ]}).
  { unfold contextFields. rewrite Value_WithValue_eq, Hmap.
    rewrite map_fmap_singleton. reflexivity. }
  eexists. split.
  { unfold Info. rewrite (leveled_run _ st _ σ' _ InfoLevel (Print args) Hcf).
    reflexivity. }
  cbn [level data]. rewrite NewLogger_Data.
  split; [reflexivity|]. split; [reflexivity|].
  split; [apply lookup_union_Some_l, lookup_singleton_eq|].
  split; (apply lookup_union_None; split; apply lookup_singleton_ne; discriminate).
Qed.

(** ** Deriving a request (C4, C5, C9) *)

Lemma fresh_request (σ : State) : requests σ !! fresh (dom (requests σ)) = None.
Proof. apply not_elem_of_dom, is_fresh. Qed.

Lemma Request_WithContext_run r req c σ :
  requests σ !! r = Some req ->
  Request_WithContext r c σ =
  Some (fresh (dom (requests σ)),
        setRequests (<[fresh (dom (requests σ)) := setCtx c req]> (requests σ)) σ).
Proof.
  intros Hr. unfold Request_WithContext, mbind, M_bind, readRequest.
  rewrite Hr. reflexivity.
Qed.

Lemma AppendContextDataAndSetValue_run r req contextId σ :
  requests σ !! r = Some req ->
  AppendContextDataAndSetValue r contextId σ =
  Some (derived r req (fresh (dom (maps σ))) {[ ContextIdKey := contextId ]} σ).
Proof.
  intros Hr. unfold AppendContextDataAndSetValue.
  unfold mbind at 1, M_bind at 1, makeMap.
  unfold mbind at 1, M_bind at 1, mapAssign. cbn [maps setMaps].
  rewrite lookup_insert_eq, insert_insert_eq.
  unfold mbind at 1, M_bind at 1, Request_Context.
  unfold mbind at 1, M_bind at 1, readRequest. cbn [requests setMaps].
  rewrite Hr. unfold mret, M_ret.
  erewrite Request_WithContext_run by exact Hr. reflexivity.
Qed.

Lemma SetContextDataAndSetValue_nil_run r req contextId σ :
  requests σ !! r = Some req ->
  SetContextDataAndSetValue r None contextId σ =
  Some (derived r req (fresh (dom (maps σ))) {[ ContextIdKey := contextId ]} σ).
Proof. apply AppendContextDataAndSetValue_run. Qed.

Lemma SetContextDataAndSetValue_map_run r req ref m contextId σ :
  requests σ !! r = Some req ->
  maps σ !! ref = Some m ->
  SetContextDataAndSetValue r (Some ref) contextId σ =
  Some (derived r req ref (<[ContextIdKey := contextId]> m) σ).
Proof.
  intros Hr Hm. unfold SetContextDataAndSetValue.
  unfold mbind at 1, M_bind at 1, mret at 1, M_ret at 1.
  unfold mbind at 1, M_bind at 1, mapAssign. rewrite Hm.
  unfold mbind at 1, M_bind at 1, Request_Context.
  unfold mbind at 1, M_bind at 1, readRequest. cbn [requests setMaps].
  rewrite Hr. unfold mret, M_ret.
  erewrite Request_WithContext_run by exact Hr. reflexivity.
Qed.

Lemma derived_original r req ref m σ :
  requests σ !! r = Some req ->
  (derived r req ref m σ).1 <> r /\
  requests (derived r req ref m σ).2 !! r = Some req.
Proof.
  intros Hr. assert (Hne : fresh (dom (requests σ)) <> r).
  { intros He. pose proof (fresh_request σ) as Hf. rewrite He in Hf. congruence. }
  split; [exact Hne|]. simpl. rewrite lookup_insert_ne by exact Hne. exact Hr.
Qed.

Lemma derived_request r req ref m σ :
  requests (derived r req ref m σ).2 !! (derived r req ref m σ).1 =
  Some (setCtx (WithValue (http.ctx req) ContextDataMapKey (VMap (Some ref))) req).
Proof. simpl. apply lookup_insert_eq. Qed.

Lemma derived_maps r req ref m σ ref' :
  maps (derived r req ref m σ).2 !! ref' =
  if decide (ref = ref') then Some m else maps σ !! ref'.
Proof. simpl. rewrite lookup_insert. destruct (decide (ref = ref')); reflexivity. Qed.

(** What [getContextData] returns, read off the heap. *)
Lemma getContextData_result c σ :
  fst <$> getContextData c σ =
  match Value c ContextDataMapKey with
  | VMap (Some ref) =>
      match maps σ !! ref with
      | Some m => Some (Some {| contextId := mapIndex m ContextIdKey |})
      | None => None
      end
  | VMap None => Some (Some {| contextId := "" |})
  | _ => Some None
  end.
Proof.
  unfold getContextData.
  destruct (Value c ContextDataMapKey) as [|[ref|]|ty]; try reflexivity.
  unfold mbind, M_bind, readMap. destruct (maps σ !! ref); reflexivity.
Qed.

Lemma getContextData_state c σ res σ' :
  getContextData c σ = Some (res, σ') -> σ' = σ.
Proof.
  unfold getContextData.
  destruct (Value c ContextDataMapKey) as [|[ref|]|ty];
    try (intros [= _ <-]; reflexivity).
  unfold mbind, M_bind, readMap. destruct (maps σ !! ref); [|discriminate].
  intros [= _ <-]. reflexivity.
Qed.

(** A lookup that does not reach the written map sees what it saw before. *)
Lemma derived_lookup_unchanged r req ref m σ c :
  Value c ContextDataMapKey <> VMap (Some ref) ->
  contextDataMap (derived r req ref m σ).2 c = contextDataMap σ c /\
  contextFields (derived r req ref m σ).2 c = contextFields σ c /\
  fst <$> getContextData c (derived r req ref m σ).2 = fst <$> getContextData c σ.
Proof.
  intros Hne. rewrite !getContextData_result. unfold contextDataMap, contextFields.
  destruct (Value c ContextDataMapKey) as [|[ref'|]|ty]; try (repeat split; reflexivity).
  rewrite derived_maps. rewrite decide_False by congruence.
  repeat split; reflexivity.
Qed.

(** C4, as stated, fails for SetContextDataAndSetValue when the map handed
    in is the one the request's context already binds: the lookup on the
    original request then returns the new correlation id. *)
Lemma C4_set_with_bound_map_shows_on_original :
  fst <$> (c ← Request_Context 1; getContextData c) Example.state
    = Some (Some {| contextId := "req-42" |}) /\
  fst <$> (SetContextDataAndSetValue 1 (Some 1%positive) "req-43";;
           c ← Request_Context 1; getContextData c) Example.state
    = Some (Some {| contextId := "req-43" |}).
Proof. split; reflexivity. Qed.

(** C4, amended: both operations return a new request and leave the
    original request and the binding of its context as they were;
    the lookup of the data map on the original request is unchanged after
    AppendContextDataAndSetValue, and after SetContextDataAndSetValue when
    the map handed in is nil or is not the map the request's context
    binds. *)
Theorem C4_original_request_lookup_unchanged r req contextId σ :
  requests σ !! r = Some req ->
  is_Some (contextFields σ (http.ctx req)) ->
  let kept (res : positive * State) :=
    res.1 <> r /\ requests res.2 !! r = Some req in
  let same_lookup (res : positive * State) :=
    contextDataMap res.2 (http.ctx req) = contextDataMap σ (http.ctx req) /\
    fst <$> getContextData (http.ctx req) res.2 =
      fst <$> getContextData (http.ctx req) σ in
  (exists res, AppendContextDataAndSetValue r contextId σ = Some res /\
     kept res /\ same_lookup res) /\
  (exists res, SetContextDataAndSetValue r None contextId σ = Some res /\
     kept res /\ same_lookup res) /\
  (forall ref, is_Some (maps σ !! ref) ->
     exists res, SetContextDataAndSetValue r (Some ref) contextId σ = Some res /\
       kept res /\
       (Value (http.ctx req) ContextDataMapKey <> VMap (Some ref) ->
        same_lookup res)).
Proof.
  intros Hr Hctx kept same_lookup.
  assert (Hfresh : Value (http.ctx req) ContextDataMapKey
                   <> VMap (Some (fresh (dom (maps σ))))).
  { intros He. destruct Hctx as [cf Hcf]. unfold contextFields in Hcf.
    rewrite He, fresh_map_ref in Hcf. discriminate. }
  assert (Hfresh_case : forall m,
    kept (derived r req (fresh (dom (maps σ))) m σ) /\
    same_lookup (derived r req (fresh (dom (maps σ))) m σ)).
  { intros m. split; [apply derived_original, Hr|].
    destruct (derived_lookup_unchanged r req _ m σ _ Hfresh) as (H1 & _ & H3).
    split; assumption. }
  split; [|split].
  - eexists. split; [apply AppendContextDataAndSetValue_run, Hr|]. apply Hfresh_case.
  - eexists. split; [apply SetContextDataAndSetValue_nil_run, Hr|]. apply Hfresh_case.
  - intros ref [m Hm]. eexists.
    split; [apply (SetContextDataAndSetValue_map_run r req ref m), Hm; exact Hr|].
    split; [apply derived_original, Hr|].
    intros Hne.
    destruct (derived_lookup_unchanged r req ref (<[ContextIdKey := contextId]> m)
                σ _ Hne) as (H1 & _ & H3).
    split; assumption.
Qed.

Lemma C4_original_request_lookup_unchanged_witness :
  exists res,
    SetContextDataAndSetValue 1 (Some 2%positive) "req-43" Example2.state
      = Some res /\
    res.1 <> 1%positive /\
    requests res.2 !! 1%positive = Some Example.request /\
    fst <$> getContextData Example.dataCtx res.2 =
      fst <$> getContextData Example.dataCtx Example2.state.
Proof.
  destruct (C4_original_request_lookup_unchanged 1%positive Example.request
              "req-43" Example2.state) as (_ & _ & Hset).
  - reflexivity.
  - eexists; reflexivity.
  - destruct (Hset 2%positive) as (res & Hres & [Hne Hkept] & Hsame).
    + eexists; reflexivity.
    + exists res. split; [exact Hres|]. split; [exact Hne|].
      split; [exact Hkept|]. apply Hsame. vm_compute. discriminate.
Defined.

(** C5, as stated, fails: a map without a correlation id acquires the
    [context_id] entry when it is handed to SetContextDataAndSetValue. *)
Lemma C5_set_writes_into_supplied_map :
  maps Example2.state !! 2%positive = Some {[ "tenant" := "acme" ]} /\
  (fun res => maps res.2 !! 2%positive) <$>
    SetContextDataAndSetValue 1 (Some 2%positive) "req-43" Example2.state
  = Some (Some {[ "context_id" := "req-43"; "tenant" := "acme" ]}).
Proof. split; reflexivity. Qed.

(** C5, amended: a fresh map is made only for a nil argument; a map that
    is handed in is used as it is: it receives the [context_id] entry, its
    other entries and all other maps stay as they were, no map is
    allocated, and the context of the derived request binds that very
    map. *)
Theorem C5_supplied_map_is_written r req ref m contextId σ :
  requests σ !! r = Some req ->
  maps σ !! ref = Some m ->
  exists r' σ' req',
    SetContextDataAndSetValue r (Some ref) contextId σ = Some (r', σ') /\
    maps σ' !! ref = Some (<["context_id" := contextId]> m) /\
    (forall k, k <> "context_id" ->
       <["context_id" := contextId]> m !! k = m !! k) /\
    (forall ref', ref' <> ref -> maps σ' !! ref' = maps σ !! ref') /\
    dom (maps σ') = dom (maps σ) /\
    requests σ' !! r' = Some req' /\
    Value (http.ctx req') ContextDataMapKey = VMap (Some ref).
Proof.
  intros Hr Hm.
  eexists _, _, _.
  split; [rewrite (SetContextDataAndSetValue_map_run r req ref m) by assumption;
          reflexivity|].
  split; [apply lookup_insert_eq|].
  split; [intros k Hk; apply lookup_insert_ne; congruence|].
  split; [intros ref' Hne; apply lookup_insert_ne; congruence|].
  split.
  { cbn [derived snd maps setRequests setMaps].
    apply dom_insert_lookup_L. exists m. exact Hm. }
  split; [apply lookup_insert_eq|].
  apply Value_WithValue_eq.
Qed.

Lemma C5_supplied_map_is_written_witness :
  exists r' σ' req',
    SetContextDataAndSetValue 1 (Some 2%positive) "req-43" Example2.state
      = Some (r', σ') /\
    maps σ' !! 2%positive = Some (<["context_id" := "req-43"]> Example2.extra) /\
    requests σ' !! r' = Some req' /\
    Value (http.ctx req') ContextDataMapKey = VMap (Some 2%positive).
Proof.
  destruct (C5_supplied_map_is_written 1%positive Example.request 2%positive
              Example2.extra "req-43" Example2.state)
    as (r' & σ' & req' & Hrun & Hmap & _ & _ & _ & Hreq & Hval).
  - reflexivity.
  - reflexivity.
  - exists r', σ', req'. repeat split; assumption.
Defined.

(** C9: a nil extra-data argument is taken as an empty map, and the data
    map of the derived request maps [context_id] to the given correlation
    id, also when the map handed in already had such an entry. *)
Theorem C9_correlation_id_wins r req data contextId σ :
  requests σ !! r = Some req ->
  match data with
  | None => True
  | Some ref => is_Some (maps σ !! ref)
  end ->
  exists r' σ' req' m,
    SetContextDataAndSetValue r data contextId σ = Some (r', σ') /\
    requests σ' !! r' = Some req' /\
    contextDataMap σ' (http.ctx req') = Some m /\
    m !! "context_id" = Some contextId /\
    m = <["context_id" := contextId]>
          match data with
          | None => ∅
          | Some ref => default ∅ (maps σ !! ref)
          end /\
    getContextData (http.ctx req') σ' =
      Some (Some {| contextId := contextId |}, σ').
Proof.
  intros Hr Hdata.
  assert (Hgoal : forall ref m0,
    exists r' σ' req' m,
      Some (derived r req ref (<[ContextIdKey := contextId]> m0) σ) = Some (r', σ') /\
      requests σ' !! r' = Some req' /\
      contextDataMap σ' (http.ctx req') = Some m /\
      m !! "context_id" = Some contextId /\
      m = <["context_id" := contextId]> m0 /\
      getContextData (http.ctx req') σ' =
        Some (Some {| contextId := contextId |}, σ')).
  { intros ref m0.
    exists (derived r req ref (<[ContextIdKey := contextId]> m0) σ).1,
           (derived r req ref (<[ContextIdKey := contextId]> m0) σ).2,
           (setCtx (WithValue (http.ctx req) ContextDataMapKey (VMap (Some ref))) req),
           (<[ContextIdKey := contextId]> m0).
    split; [reflexivity|].
    split; [apply lookup_insert_eq|].
    assert (Hmap : maps (derived r req ref (<[ContextIdKey := contextId]> m0) σ).2
                     !! ref = Some (<[ContextIdKey := contextId]> m0))
      by apply lookup_insert_eq.
    split.
    { unfold contextDataMap. cbn [setCtx http.ctx].
      rewrite Value_WithValue_eq. exact Hmap. }
    split; [apply lookup_insert_eq|].
    split; [reflexivity|].
    unfold getContextData. cbn [setCtx http.ctx]. rewrite Value_WithValue_eq.
    unfold mbind, M_bind, readMap. rewrite Hmap.
    unfold mapIndex. rewrite lookup_insert_eq. reflexivity. }
  destruct data as [ref|].
  - destruct Hdata as [m0 Hm0].
    rewrite (SetContextDataAndSetValue_map_run r req ref m0) by assumption.
    rewrite Hm0. apply Hgoal.
  - rewrite (SetContextDataAndSetValue_nil_run r req) by assumption.
    apply (Hgoal (fresh (dom (maps σ))) ∅).
Qed.

Lemma C9_correlation_id_wins_witness :
  exists r' σ' req' m,
    SetContextDataAndSetValue 1 (Some 1%positive) "req-43" Example.state
      = Some (r', σ') /\
    requests σ' !! r' = Some req' /\
    contextDataMap σ' (http.ctx req') = Some m /\
    m !! "context_id" = Some "req-43".
Proof.
  destruct (C9_correlation_id_wins 1%positive Example.request (Some 1%positive)
              "req-43" Example.state)
    as (r' & σ' & req' & m & Hrun & Hreq & Hmap & Hid & _).
  - reflexivity.
  - eexists; reflexivity.
  - exists r', σ', req', m. repeat split; assumption.
Defined.

(** ** The response capture wrapper (C3) *)

Lemma writeBodies_run {S} `{!http.ResponseWriter S} bodies :
  forall w : LoggingResponseWriter S,
  (writeBodies bodies w).1 = (sinkWriteBodies bodies (ResponseWriter w)).1 /\
  ResponseWriter (writeBodies bodies w).2 =
    (sinkWriteBodies bodies (ResponseWriter w)).2 /\
  Status (writeBodies bodies w).2 = Status w /\
  Body (writeBodies bodies w).2 =
    match last bodies with
    | Some body => String.string_of_list_byte body
    | None => Body w
    end.
Proof.
  induction bodies as [|body rest IH]; intros w; [repeat split|].
  cbn [writeBodies sinkWriteBodies]. unfold Write.
  destruct (http.ResponseWriter_Write body (ResponseWriter w)) as [res sink].
  set (w1 := {| Status := Status w; Body := String.string_of_list_byte body;
                ResponseWriter := sink |}).
  destruct (IH w1) as (Hres & Hsink & Hstatus & Hbody).
  change (ResponseWriter w1) with sink in Hres, Hsink.
  destruct (writeBodies rest w1) as [results w2].
  destruct (sinkWriteBodies rest sink) as [results' sink'].
  simpl in *.
  split; [congruence|]. split; [exact Hsink|]. split; [exact Hstatus|].
  rewrite Hbody, last_cons. destruct (last rest); reflexivity.
Qed.

(** C3, as stated, fails after two body writes: the recorded body is the
    second write, not the concatenation of both. *)
Lemma C3_body_is_not_the_concatenation :
  let bodies := [ ["a"%byte; "b"%byte]; ["c"%byte; "d"%byte] ] in
  let w := (writeBodies bodies
              (WriteHeader 200 (CreateResponseWrapper ([] : list SinkEvent)))).2 in
  Body w = "cd" /\
  String.string_of_list_byte (concat bodies) = "abcd" /\
  Body w <> String.string_of_list_byte (concat bodies).
Proof. vm_compute. repeat split. discriminate. Qed.

(** C3, amended: for one status write followed by any number of body
    writes, the sink receives exactly what direct writes would send and
    every write returns what the sink returns; afterwards the recorded
    status is the written status and the recorded body is the text of the
    last body write (empty when there was none), which is the
    concatenation when at most one body was written. *)
Theorem C3_wrapper_passes_through_and_records {S} `{!http.ResponseWriter S}
    (sink : S) (code : Z) (bodies : list (list Byte.byte)) :
  let through := writeBodies bodies (WriteHeader code (CreateResponseWrapper sink)) in
  let direct := sinkWriteBodies bodies (http.ResponseWriter_WriteHeader code sink) in
  ResponseWriter through.2 = direct.2 /\
  through.1 = direct.1 /\
  Status through.2 = code /\
  Body through.2 =
    match last bodies with
    | Some body => String.string_of_list_byte body
    | None => ""
    end /\
  ((length bodies <= 1)%nat ->
   Body through.2 = String.string_of_list_byte (concat bodies)).
Proof.
  intros through direct.
  destruct (writeBodies_run bodies (WriteHeader code (CreateResponseWrapper sink)))
    as (Hres & Hsink & Hstatus & Hbody).
  fold through in Hres, Hsink, Hstatus, Hbody.
  change (ResponseWriter (WriteHeader code (CreateResponseWrapper sink)))
    with (http.ResponseWriter_WriteHeader code sink) in Hres, Hsink.
  fold direct in Hres, Hsink.
  split; [exact Hsink|]. split; [exact Hres|]. split; [exact Hstatus|].
  split; [exact Hbody|].
  intros Hlen. rewrite Hbody.
  destruct bodies as [|body [|b rest]]; simpl in *; [reflexivity | | lia].
  rewrite app_nil_r. reflexivity.
Qed.

(** ** Logging a request (C7) *)

Lemma ReadAll_NewBuffer buf : io.ReadAll (io.NewBuffer buf) = (buf, None).
Proof.
  destruct buf as [|b buf]; [reflexivity|].
  simpl. rewrite app_nil_r. reflexivity.
Qed.

Lemma injectURLPath_run lp r req σ :
  requests σ !! r = Some req ->
  injectURLPath lp r σ =
  Some ({| fields :=
             <[PathKey := VString (http.Host req +:+ http.URLPath req)]> (fields lp) |},
        σ).
Proof.
  intros Hr. unfold injectURLPath, mbind, M_bind, readRequest. rewrite Hr.
  reflexivity.
Qed.

Lemma bodyRestored_fresh r req b s σ :
  (bodyRestored r req b s σ).1 <> b /\
  bodies σ !! (bodyRestored r req b s σ).1 = None.
Proof.
  unfold bodyRestored. cbn [fst].
  set (drainedBodies := <[b := io.afterClose (io.afterRead s)]> (bodies σ)).
  pose proof (is_fresh (dom drainedBodies)) as Hfresh.
  unfold drainedBodies in Hfresh at 2. rewrite dom_insert_L in Hfresh.
  split.
  - intros He. apply Hfresh. rewrite He. set_solver.
  - apply not_elem_of_dom. intros Hin. apply Hfresh. set_solver.
Qed.

Lemma bodyRestored_bodies r req b s σ b0 :
  bodies (bodyRestored r req b s σ).2 !! b0 =
  if decide (b0 = (bodyRestored r req b s σ).1)
  then Some (io.bufferStream (io.readResult s).1)
  else if decide (b0 = b) then Some (io.afterClose (io.afterRead s))
  else bodies σ !! b0.
Proof.
  unfold bodyRestored. cbn [fst snd bodies setRequests setBodies].
  rewrite lookup_insert. destruct (decide (_ = b0)) as [<-|Hne].
  - rewrite decide_True by reflexivity. reflexivity.
  - rewrite decide_False by congruence.
    rewrite lookup_insert. destruct (decide (b = b0)) as [<-|Hne'].
    + rewrite decide_True by reflexivity. reflexivity.
    + rewrite decide_False by congruence. reflexivity.
Qed.

Lemma readAllBody_bufferStream b buf σ :
  bodies σ !! b = Some (io.bufferStream buf) ->
  fst <$> readAllBody b σ = Some (buf, None).
Proof.
  intros Hb. unfold readAllBody. rewrite Hb. cbn [fmap option_fmap option_map fst].
  unfold io.readResult, io.bufferStream. cbn [io.closed io.unread].
  rewrite ReadAll_NewBuffer. reflexivity.
Qed.

Lemma injectRequestBody_run `{Strconv} lp r req b s σ :
  requests σ !! r = Some req ->
  http.Body req = Some b ->
  bodies σ !! b = Some s ->
  injectRequestBody lp r σ =
  Some ({| fields :=
             <[RequestKey := VString (sprintfBody (io.readResult s).1)]> (fields lp) |},
        (bodyRestored r req b s σ).2).
Proof.
  intros Hr Hbody Hs. unfold injectRequestBody, bodyRestored.
  unfold mbind at 1, M_bind at 1, readRequest. rewrite Hr, Hbody.
  unfold mbind at 1, M_bind at 1, readAllBody. rewrite Hs.
  destruct (io.readResult s) as [buf err].
  unfold mbind at 1, M_bind at 1, closeBody. cbn [bodies setBodies].
  rewrite lookup_insert_eq, insert_insert_eq.
  unfold mbind at 1, M_bind at 1, newNopCloser. cbn [bodies setBodies].
  unfold mbind at 1, M_bind at 1, writeRequest. cbn [requests setBodies].
  rewrite Hr. reflexivity.
Qed.

Lemma LogRequest_run `{Strconv} l st c r req b s σ cf :
  requests σ !! r = Some req ->
  http.Body req = Some b ->
  bodies σ !! b = Some s ->
  contextFields σ c = Some cf ->
  LogRequest l st c r σ =
  Some ({| level := InfoLevel;
           data :=
             <[RequestKey := VString (sprintfBody (io.readResult s).1)]>
               (<[PathKey := VString (http.Host req +:+ http.URLPath req)]> cf)
             ∪ Data (entry l);
           message := Print [VString "Request Body"] |},
        (bodyRestored r req b s σ).2).
Proof.
  intros Hr Hbody Hs Hcf. unfold LogRequest.
  unfold mbind at 1, M_bind at 1.
  rewrite setCallStackTrace_skips by reflexivity.
  unfold mbind at 1, M_bind at 1.
  rewrite (injectContextDataMap_run _ c σ cf Hcf).
  unfold mbind at 1, M_bind at 1.
  rewrite (injectURLPath_run _ r req σ Hr).
  unfold mbind at 1, M_bind at 1.
  rewrite (injectRequestBody_run _ r req b s σ Hr Hbody Hs).
  unfold mret, M_ret, logrus.Log. rewrite WithFields_Data.
  cbn [fields newLogParams]. rewrite (right_id_L ∅ (∪)). reflexivity.
Qed.

(** C7: LogRequest reads the body stream of the request to its end and
    closes it, puts the bytes it read into a new buffer stream that
    nothing else holds, and sets that stream on the request, so that the
    next full read through the request returns exactly these bytes; it
    records their text form under [request].  The other fields of the
    request, the other requests and the data maps stay as they were; the
    stream that was read is left drained and closed for whoever else
    holds it. *)
Theorem C7_request_body_is_restored `{Strconv} l st c r req b s σ cf :
  requests σ !! r = Some req ->
  http.Body req = Some b ->
  bodies σ !! b = Some s ->
  contextFields σ c = Some cf ->
  let B := (io.readResult s).1 in
  exists e σ' req' b',
    LogRequest l st c r σ = Some (e, σ') /\
    requests σ' !! r = Some req' /\
    http.Body req' = Some b' /\
    b' <> b /\ bodies σ !! b' = None /\
    bodies σ' !! b' = Some (io.bufferStream B) /\
    fst <$> readAllBody b' σ' = Some (B, None) /\
    data e !! "request" =
      Some (VString ("{" +:+ Quote (String.string_of_list_byte B) +:+ "}")) /\
    http.Host req' = http.Host req /\
    http.URLPath req' = http.URLPath req /\
    http.ctx req' = http.ctx req /\
    maps σ' = maps σ /\
    (forall r', r' <> r -> requests σ' !! r' = requests σ !! r') /\
    bodies σ' !! b = Some (io.afterClose (io.afterRead s)) /\
    (forall b0, b0 <> b -> b0 <> b' -> bodies σ' !! b0 = bodies σ !! b0).
Proof.
  intros Hr Hbody Hs Hcf B.
  destruct (bodyRestored_fresh r req b s σ) as [Hne Hnew].
  eexists _, (bodyRestored r req b s σ).2,
          (setBody (Some (bodyRestored r req b s σ).1) req),
          (bodyRestored r req b s σ).1.
  split; [apply (LogRequest_run l st c r req b s σ cf Hr Hbody Hs Hcf)|].
  split; [apply lookup_insert_eq|].
  split; [reflexivity|].
  split; [exact Hne|]. split; [exact Hnew|].
  assert (Hbuf : bodies (bodyRestored r req b s σ).2 !! (bodyRestored r req b s σ).1
                 = Some (io.bufferStream B)).
  { rewrite bodyRestored_bodies, decide_True by reflexivity. reflexivity. }
  split; [exact Hbuf|].
  split; [apply readAllBody_bufferStream, Hbuf|].
  split; [apply lookup_union_Some_l, lookup_insert_eq|].
  do 4 (split; [reflexivity|]).
  split; [intros r' Hr'; apply lookup_insert_ne; congruence|].
  split.
  - rewrite bodyRestored_bodies, decide_False by congruence.
    rewrite decide_True by reflexivity. reflexivity.
  - intros b0 Hb0 Hb0'. rewrite bodyRestored_bodies.
    rewrite decide_False by exact Hb0'. rewrite decide_False by exact Hb0.
    reflexivity.
Qed.

Lemma C7_request_body_is_restored_witness :
  exists e σ' req' b',
    LogRequest (H := quoteAscii) (NewLogger "svc")
      (Example.stacks "(*Log).LogRequest") Example.dataCtx 1 Example.state
      = Some (e, σ') /\
    requests σ' !! 1%positive = Some req' /\
    http.Body req' = Some b' /\
    b' <> 1%positive /\
    fst <$> readAllBody b' σ' = Some (["a"; "b"; "c"]%byte, None) /\
    data e !! "request" =
      Some (VString ("{" +:+ quoteMark +:+ "abc" +:+ quoteMark +:+ "}")).
Proof.
  destruct (C7_request_body_is_restored (H := quoteAscii) (NewLogger "svc")
              (Example.stacks "(*Log).LogRequest") Example.dataCtx 1%positive
              Example.request 1%positive Example.body
              Example.state Example.dataFields)
    as (e & σ' & req' & b' & Hrun & Hreq & Hbody & Hne & _ & _ & Hread & Hfield & _).
  - reflexivity.
  - reflexivity.
  - reflexivity.
  - reflexivity.
  - exists e, σ', req', b'.
    split; [exact Hrun|]. split; [exact Hreq|]. split; [exact Hbody|].
    split; [exact Hne|]. split; [exact Hread | exact Hfield].
Defined.

(** ** Merge order of the fields (C2) *)

Lemma InfoMap_run l st c extras args σ cf :
  contextFields σ c = Some cf ->
  InfoMap l st c (Some extras) args σ =
  Some ({| level := InfoLevel; data := (extras ∪ cf) ∪ Data (entry l);
           message := Print args |}, σ).
Proof.
  intros Hcf. unfold InfoMap.
  unfold mbind at 1, M_bind at 1.
  rewrite setCallStackTrace_skips by reflexivity.
  unfold mbind at 1, M_bind at 1.
  rewrite (injectContextDataMap_run _ c σ cf Hcf).
  unfold mret, M_ret, logrus.Log. rewrite WithFields_Data.
  cbn [fields newLogParams]. rewrite rangeAssign_union, (right_id_L ∅ (∪)).
  reflexivity.
Qed.

Lemma LogResponse_run {S} l st c (rw : LoggingResponseWriter S) σ cf :
  contextFields σ c = Some cf ->
  LogResponse l st c rw σ =
  Some ({| level := InfoLevel;
           data :=
             <[ResponseKey := VString (Body rw)]>
               (<[ResponseCodeKey := VInt (Status rw)]> cf)
             ∪ Data (entry l);
           message := Print [VString "Response Body"] |}, σ).
Proof.
  intros Hcf. unfold LogResponse.
  unfold mbind at 1, M_bind at 1.
  rewrite setCallStackTrace_skips by reflexivity.
  unfold mbind at 1, M_bind at 1.
  rewrite (injectContextDataMap_run _ c σ cf Hcf).
  unfold mret, M_ret, logrus.Log. rewrite WithFields_Data.
  cbn [fields newLogParams injectResponseBody]. rewrite (right_id_L ∅ (∪)).
  reflexivity.
Qed.

Lemma insert2_union (k2 k1 : string) (b a : Any) (m : gmap string Any) :
  <[k2 := b]> (<[k1 := a]> m) = {[ k2 := b; k1 := a ]} ∪ m.
Proof.
  rewrite (insert_union_singleton_l (<[k1 := a]> m)).
  rewrite (insert_union_singleton_l m).
  rewrite (assoc_L (∪)). f_equal.
  symmetry. apply insert_union_singleton_l.
Qed.

Lemma mergedFields_lookup (extras cf callerFs base : gmap string Any) k :
  mergedFields extras cf callerFs base !! k =
  match extras !! k with
  | Some v => Some v
  | None =>
      match cf !! k with
      | Some v => Some v
      | None =>
          match callerFs !! k with
          | Some v => Some v
          | None => base !! k
          end
      end
  end.
Proof.
  unfold mergedFields. rewrite !lookup_union.
  destruct (extras !! k), (cf !! k), (callerFs !! k), (base !! k); reflexivity.
Qed.

(** C2: every operation hands over the union of its call-specific fields,
    the context fields, the caller fields and the base fields of the
    entry, in which a key holds the value of the first of these that
    binds it: the accumulator runs the caller step, then the context
    step, then the call-specific writes, and a later write replaces an
    earlier one.  Error, Errorf, Fatal and Fatalf have caller fields and
    no call-specific ones; InfoMap, LogRequest and LogResponse have
    call-specific fields and, running at info level, no caller fields;
    the other operations have neither. *)
Theorem C2_merge_precedence `{Strconv} l st c message args σ cf :
  contextFields σ c = Some cf ->
  let caller := resolvedCaller st σ in
  let base := Data (entry l) in
  let record lvl msg extras callerFs σ' :=
    Some ({| level := lvl;
             data := mergedFields extras cf callerFs base;
             message := msg |}, σ') in
  (forall extras callerFs k,
     mergedFields extras cf callerFs base !! k =
     match extras !! k with
     | Some v => Some v
     | None =>
         match cf !! k with
         | Some v => Some v
         | None =>
             match callerFs !! k with
             | Some v => Some v
             | None => base !! k
             end
         end
     end) /\
  (forall found extras, exists lp,
     injectContextDataMap (setCaller newLogParams found) c σ = Some (lp, σ) /\
     Data (WithFields (entry l) (rangeAssign extras (fields lp)))
       = mergedFields extras cf (callerFields found) base) /\
  Error l st c args σ =
    record ErrorLevel (Print args) ∅ (callerFields caller) (afterCallerInit st σ) /\
  Errorf l st c message args σ =
    record ErrorLevel (Printf message args) ∅ (callerFields caller)
      (afterCallerInit st σ) /\
  Fatal l st c args σ =
    record FatalLevel (Print args) ∅ (callerFields caller) (afterCallerInit st σ) /\
  Fatalf l st c message args σ =
    record FatalLevel (Printf message args) ∅ (callerFields caller)
      (afterCallerInit st σ) /\
  Warn l st c args σ = record WarnLevel (Print args) ∅ ∅ σ /\
  Warnf l st c message args σ = record WarnLevel (Printf message args) ∅ ∅ σ /\
  Info l st c args σ = record InfoLevel (Print args) ∅ ∅ σ /\
  Infof l st c message args σ = record InfoLevel (Printf message args) ∅ ∅ σ /\
  Debug l st c args σ = record DebugLevel (Print args) ∅ ∅ σ /\
  Debugf l st c message args σ = record DebugLevel (Printf message args) ∅ ∅ σ /\
  (forall extras,
     InfoMap l st c (Some extras) args σ = record InfoLevel (Print args) extras ∅ σ) /\
  InfoMap l st c None args σ = record InfoLevel (Print args) ∅ ∅ σ /\
  (forall S (rw : LoggingResponseWriter S),
     LogResponse l st c rw σ =
     record InfoLevel (Print [VString "Response Body"])
       {[ "response" := VString (Body rw); "response_code" := VInt (Status rw) ]}
       ∅ σ) /\
  (forall r req b s,
     requests σ !! r = Some req -> http.Body req = Some b ->
     bodies σ !! b = Some s ->
     LogRequest l st c r σ =
     record InfoLevel (Print [VString "Request Body"])
       {[ "request" := VString (sprintfBody (io.readResult s).1);
          "url_path" := VString (http.Host req +:+ http.URLPath req) ]}
       ∅ (bodyRestored r req b s σ).2).
Proof.
  intros Hcf caller base record.
  assert (Hattr : forall lvl msg, (lvl <=? ErrorLevel)%N = true ->
    (lp ← setCallStackTrace newLogParams lvl st;
     lp ← injectContextDataMap lp c;
     mret (logrus.Log (WithFields (entry l) (fields lp)) lvl msg)) σ
    = record lvl msg ∅ (callerFields caller) (afterCallerInit st σ)).
  { intros lvl msg Hlvl. rewrite (leveled_run l st c σ cf lvl msg Hcf), Hlvl.
    unfold record, mergedFields. rewrite (left_id_L ∅ (∪)). reflexivity. }
  assert (Hplain : forall lvl msg, (lvl <=? ErrorLevel)%N = false ->
    (lp ← setCallStackTrace newLogParams lvl st;
     lp ← injectContextDataMap lp c;
     mret (logrus.Log (WithFields (entry l) (fields lp)) lvl msg)) σ
    = record lvl msg ∅ ∅ σ).
  { intros lvl msg Hlvl. rewrite (leveled_run l st c σ cf lvl msg Hcf), Hlvl.
    unfold record, mergedFields.
    rewrite (left_id_L ∅ (∪)), (right_id_L ∅ (∪)). reflexivity. }
  split; [intros extras callerFs k; apply mergedFields_lookup|].
  split.
  { intros found extras. eexists.
    split; [apply (injectContextDataMap_run _ c σ cf Hcf)|].
    rewrite WithFields_Data, rangeAssign_union. reflexivity. }
  do 4 (split; [apply Hattr; reflexivity|]).
  do 6 (split; [apply Hplain; reflexivity|]).
  split.
  { intros extras. rewrite (InfoMap_run l st c extras args σ cf Hcf).
    unfold record, mergedFields. rewrite (right_id_L ∅ (∪)). reflexivity. }
  split; [apply (Hplain InfoLevel (Print args)); reflexivity|].
  split.
  { intros S rw. rewrite (LogResponse_run l st c rw σ cf Hcf).
    unfold record, mergedFields.
    rewrite (right_id_L ∅ (∪)), insert2_union. reflexivity. }
  intros r req b s Hr Hbody Hs.
  rewrite (LogRequest_run l st c r req b s σ cf Hr Hbody Hs Hcf).
  unfold record, mergedFields.
  rewrite (right_id_L ∅ (∪)), insert2_union. reflexivity.
Qed.

Lemma C2_merge_precedence_witness :
  Example.dataFields !! "file" = Some (VString "F2") /\
  callerFields (resolvedCaller (Example.stacks "(*Log).Error") Example.state)
    !! "file" = Some (VString "/app/main.go:42") /\
  exists e e',
    Error (NewLogger "svc") (Example.stacks "(*Log).Error") Example.dataCtx []
      Example.state
      = Some (e, afterCallerInit (Example.stacks "(*Log).Error") Example.state) /\
    data e !! "file" = Some (VString "F2") /\
    data e !! "func" = Some (VString "main.handler") /\
    InfoMap (NewLogger "svc") (Example.stacks "(*Log).Error") Example.dataCtx
      (Some {[ "file" := VString "F3" ]}) [] Example.state
      = Some (e', Example.state) /\
    data e' !! "file" = Some (VString "F3").
Proof.
  split; [reflexivity|]. split; [vm_compute; reflexivity|].
  destruct (C2_merge_precedence (H := quoteAscii) (NewLogger "svc")
              (Example.stacks "(*Log).Error") Example.dataCtx "" []
              Example.state Example.dataFields)
    as (Hlookup & _ & HError & _ & _ & _ & _ & _ & _ & _ & _ & _ & HInfoMap & _).
  - reflexivity.
  - eexists _, _.
    split; [exact HError|].
    split; [cbn [data]; rewrite Hlookup; vm_compute; reflexivity|].
    split; [cbn [data]; rewrite Hlookup; vm_compute; reflexivity|].
    split; [exact (HInfoMap {[ "file" := VString "F3" ]})|].
    cbn [data]. rewrite Hlookup. vm_compute. reflexivity.
Defined.

(** ** The package name (C10) *)

(** C10: [getPackageName] is total, every round of its loop cuts the
    string strictly shorter, and its result is a prefix of the argument:
    the string left after stripping the last period-separated segment as
    long as the last period lies after the last slash. *)
Theorem C10_getPackageName_terminates_with_prefix f :
  ((LastIndex f "/" < LastIndex f ".")%Z ->
   (String.length (sliceTo f (LastIndex f ".")) < String.length f)%nat) /\
  getPackageName f =
    (if (LastIndex f "/" <? LastIndex f ".")%Z
     then getPackageName (sliceTo f (LastIndex f "."))
     else f) /\
  (exists s, f = getPackageName f +:+ s) /\
  (LastIndex (getPackageName f) "." <= LastIndex (getPackageName f) "/")%Z /\
  StripsTo f (getPackageName f) /\
  (forall r, StripsTo f r -> r = getPackageName f).
Proof.
  split.
  { intros Hlt. apply sliceTo_LastIndex_shorter.
    pose proof (LastIndex_bounds f "/"). lia. }
  split; [apply getPackageName_loop|].
  split; [apply getPackageName_is_prefix|].
  split; [apply getPackageName_exit|].
  split; [apply getPackageName_strips | apply StripsTo_getPackageName].
Qed.

(** * Further properties *)

(** ** More on the package name *)

Lemma hasByte_app c a b : hasByte c (a +:+ b) = hasByte c a || hasByte c b.
Proof.
  induction a as [|x a IH]; [reflexivity|].
  change (hasByte c (String x (a +:+ b))
          = hasByte c (String x a) || hasByte c b).
  simpl. rewrite IH. apply orb_assoc.
Qed.

Lemma string_length_app a b :
  String.length (a +:+ b) = (String.length a + String.length b)%nat.
Proof.
  induction a as [|x a IH]; [reflexivity|].
  change (S (String.length (a +:+ b)) = S (String.length a + String.length b)).
  f_equal. exact IH.
Qed.

(** A string that holds a byte splits at its last occurrence. *)
Lemma last_byte_split c s :
  hasByte c s = true ->
  exists q seg, s = q +:+ String c seg /\ hasByte c seg = false.
Proof.
  induction s as [|a s IH]; [discriminate|]. simpl. intros H.
  destruct (hasByte c s) eqn:Hs.
  - destruct (IH eq_refl) as (q & seg & -> & Hseg).
    exists (String a q), seg. split; [reflexivity | exact Hseg].
  - rewrite orb_false_r in H. apply Ascii.eqb_eq in H. subst a.
    exists EmptyString, s. split; [reflexivity | exact Hs].
Qed.

(** ... and at its first occurrence. *)
Lemma untilByte_split c s :
  hasByte c s = true ->
  exists rest, s = untilByte c s +:+ String c rest.
Proof.
  induction s as [|a s IH]; [discriminate|]. simpl. intros H.
  destruct (Ascii.eqb a c) eqn:Ha.
  - apply Ascii.eqb_eq in Ha. subst a. exists s. reflexivity.
  - destruct (IH H) as [rest Hrest]. exists rest.
    change (String a s = String a (untilByte c s +:+ String c rest)).
    f_equal. exact Hrest.
Qed.

Lemma untilByte_absent c s : hasByte c s = false -> untilByte c s = s.
Proof.
  induction s as [|a s IH]; [reflexivity|]. simpl. intros H.
  apply orb_false_iff in H as [Ha Hs]. rewrite Ha, IH by exact Hs. reflexivity.
Qed.

Lemma hasByte_untilByte c s : hasByte c (untilByte c s) = false.
Proof.
  induction s as [|a s IH]; [reflexivity|]. simpl.
  destruct (Ascii.eqb a c) eqn:Ha; [reflexivity|]. simpl. rewrite Ha. exact IH.
Qed.

Lemma StripsTo_suffix p r : StripsTo p r ->
  forall rest, hasByte "/" rest = false ->
  StripsTo (p +:+ String "." rest) r.
Proof.
  intros Hp rest. remember (String.length rest) as n eqn:Hn.
  revert rest Hn. induction (lt_wf n) as [n _ IH]. intros rest -> Hslash.
  destruct (hasByte "." rest) eqn:Hdot.
  - destruct (last_byte_split "." rest Hdot) as (q & seg & -> & Hseg).
    rewrite hasByte_app in Hslash. apply orb_false_iff in Hslash as [Hq Hs].
    simpl in Hs.
    change (p +:+ String "." (q +:+ String "." seg))
      with (p +:+ (String "." q +:+ String "." seg)).
    rewrite <- string_app_assoc.
    apply StripsTo_cut; [exact Hseg | exact Hs |].
    eapply IH; [|reflexivity | exact Hq].
    rewrite string_length_app. simpl. lia.
  - apply StripsTo_cut; assumption.
Qed.

(** X1: the package name of a package name is itself. *)
Theorem getPackageName_idempotent f :
  getPackageName (getPackageName f) = getPackageName f.
Proof.
  rewrite (getPackageName_loop (getPackageName f)).
  pose proof (getPackageName_exit f) as Hexit.
  apply Z.ltb_ge in Hexit. rewrite Hexit. reflexivity.
Qed.

(** X2: whatever follows a period is dropped, as long as it holds no
    slash: a function, a method with its receiver, a closure inside a
    function all reduce to the name before the period. *)
Theorem getPackageName_drops_suffix p rest :
  hasByte "/" rest = false ->
  getPackageName (p +:+ String "." rest) = getPackageName p.
Proof.
  intros Hslash. symmetry. apply StripsTo_getPackageName.
  apply StripsTo_suffix; [apply getPackageName_strips | exact Hslash].
Qed.

Lemma getPackageName_drops_suffix_witness :
  getPackageName ("github.com/muhammad-fakhri/log" +:+
                  String "." "(*LogParams).setCaller")
  = getPackageName "github.com/muhammad-fakhri/log".
Proof. apply getPackageName_drops_suffix. reflexivity. Defined.

Lemma getPackageName_no_period d base :
  hasByte "/" base = false -> hasByte "." base = false ->
  getPackageName (d +:+ String "/" base) = d +:+ String "/" base /\
  getPackageName base = base.
Proof.
  intros Hslash Hdot. split.
  - rewrite getPackageName_loop.
    rewrite (LastIndex_app_sep "/" d base Hslash).
    rewrite (LastIndex_app_other "/" "." d base eq_refl).
    rewrite lastIndexFrom_absent by exact Hdot.
    pose proof (LastIndex_bounds d ".") as Hb.
    destruct (Z.ltb_spec (Z.of_nat (String.length d)) (LastIndex d ".")); [lia|].
    reflexivity.
  - rewrite getPackageName_loop. unfold LastIndex.
    rewrite !lastIndexFrom_absent by assumption. reflexivity.
Qed.

(** X3: the closed form of the loop.  With the name split at its last
    slash, the result is everything up to the first period of the last
    path element. *)
Theorem getPackageName_closed_form d base :
  hasByte "/" base = false ->
  getPackageName (d +:+ String "/" base)
    = d +:+ String "/" (untilByte "." base) /\
  getPackageName base = untilByte "." base.
Proof.
  intros Hslash.
  destruct (hasByte "." base) eqn:Hdot.
  - destruct (untilByte_split "." base Hdot) as [rest Hbase].
    assert (Hparts : hasByte "/" (untilByte "." base) = false /\
                     hasByte "/" rest = false).
    { rewrite Hbase, hasByte_app in Hslash.
      apply orb_false_iff in Hslash as [Hu Hr]. simpl in Hr. tauto. }
    destruct Hparts as [Hu Hr].
    destruct (getPackageName_no_period d (untilByte "." base) Hu
                (hasByte_untilByte "." base)) as [Hdir Hplain].
    split.
    + rewrite Hbase at 1.
      change (d +:+ String "/" (untilByte "." base +:+ String "." rest))
        with (d +:+ (String "/" (untilByte "." base) +:+ String "." rest)).
      rewrite <- string_app_assoc.
      rewrite (getPackageName_drops_suffix _ rest Hr).
      exact Hdir.
    + rewrite Hbase at 1.
      rewrite (getPackageName_drops_suffix _ rest Hr). exact Hplain.
  - rewrite (untilByte_absent "." base Hdot).
    apply getPackageName_no_period; assumption.
Qed.

Lemma getPackageName_closed_form_witness :
  getPackageName ("github.com/muhammad-fakhri" +:+
                  String "/" "log.getCaller.func1")
  = "github.com/muhammad-fakhri" +:+ String "/" (untilByte "." "log.getCaller.func1").
Proof. apply getPackageName_closed_form. reflexivity. Defined.

(** ** More on the caller resolver *)

Lemma callerLoop_first_external this frames f :
  callerLoop this frames = Some f <->
  exists pre post,
    frames = pre ++ f :: post /\
    Forall (fun g => getPackageName (Function g) = this) pre /\
    getPackageName (Function f) <> this /\
    post <> [].
Proof.
  split.
  - induction frames as [|g rest IH]; [discriminate|].
    destruct rest as [|h rest]; [discriminate|].
    change (callerLoop this (g :: h :: rest)) with
      (if decide (getPackageName (Function g) = this)
       then callerLoop this (h :: rest) else Some g).
    destruct (decide (getPackageName (Function g) = this)) as [Hg|Hg].
    + intros H. destruct (IH H) as (pre & post & Heq & Hpre & Hf & Hpost).
      exists (g :: pre), post. rewrite Heq.
      split; [reflexivity|]. split; [constructor; assumption|]. split; assumption.
    + intros [= <-]. exists [], (h :: rest).
      split; [reflexivity|]. split; [constructor|]. split; [exact Hg | discriminate].
  - intros (pre & post & -> & Hpre & Hf & Hpost).
    induction Hpre as [|g pre Hg _ IH].
    + destruct post as [|h post]; [contradiction|].
      change ([] ++ f :: h :: post) with (f :: h :: post).
      change (callerLoop this (f :: h :: post)) with
        (if decide (getPackageName (Function f) = this)
         then callerLoop this (h :: post) else Some f).
      destruct (decide (getPackageName (Function f) = this));
        [contradiction | reflexivity].
    + assert (Hshape : exists h tl, pre ++ f :: post = h :: tl)
        by (destruct pre; simpl; eauto).
      destruct Hshape as (h & tl & Hshape).
      change ((g :: pre) ++ f :: post) with (g :: (pre ++ f :: post)).
      rewrite Hshape in IH |- *.
      change (callerLoop this (g :: h :: tl)) with
        (if decide (getPackageName (Function g) = this)
         then callerLoop this (h :: tl) else Some g).
      destruct (decide (getPackageName (Function g) = this));
        [exact IH | contradiction].
Qed.

(** X4: the resolver reports a frame exactly when that frame is the first
    of the window that lies outside the package and is not the last frame
    of the window; it never reports a frame of the package. *)
Theorem getCaller_reports_first_external st σ f :
  fst <$> getCaller st σ = Some (Some f) <->
  exists pre post,
    callerWindow st σ = pre ++ f :: post /\
    Forall (fun g => getPackageName (Function g)
                     = thisPackageName (afterCallerInit st σ)) pre /\
    getPackageName (Function f) <> thisPackageName (afterCallerInit st σ) /\
    post <> [].
Proof.
  rewrite getCaller_run. cbn [fmap option_fmap option_map fst].
  rewrite <- callerLoop_first_external. unfold resolvedCaller.
  split; [intros [= H]; exact H | intros ->; reflexivity].
Qed.

(** X5: the initialisation runs once.  The first call sets the skip count
    to the three known frames and caches the package name of the function
    it finds on the stack; it touches nothing else.  A later call, on any
    stack, leaves the state as it is and compares against the cached
    name. *)
Theorem getCaller_initialises_once st σ :
  exists caller σ1,
    getCaller st σ = Some (caller, σ1) /\
    callerInitOnce σ1 = true /\
    maps σ1 = maps σ /\ requests σ1 = requests σ /\
    (callerInitOnce σ = false ->
     minimumCallerDepth σ1 = 3%nat /\
     thisPackageName σ1 =
       getPackageName (Function (Next (Callers 1 2 (onceStack st))).1.1)) /\
    (callerInitOnce σ = true -> σ1 = σ) /\
    forall st',
      getCaller st' σ1 =
      Some (callerLoop (thisPackageName σ1)
              (Callers (minimumCallerDepth σ1) 25 (callerStack st')), σ1).
Proof.
  exists (resolvedCaller st σ), (afterCallerInit st σ).
  split; [apply getCaller_run|].
  assert (Hdone : callerInitOnce (afterCallerInit st σ) = true).
  { unfold afterCallerInit. destruct (callerInitOnce σ) eqn:H; [exact H | reflexivity]. }
  split; [exact Hdone|].
  split; [apply afterCallerInit_maps|].
  split; [apply afterCallerInit_requests|].
  split.
  { intros H. unfold afterCallerInit. rewrite H. split; reflexivity. }
  split.
  { intros H. unfold afterCallerInit. rewrite H. reflexivity. }
  intros st'. rewrite getCaller_run.
  unfold resolvedCaller, callerWindow.
  assert (Hsame : afterCallerInit st' (afterCallerInit st σ) = afterCallerInit st σ).
  { unfold afterCallerInit at 1. rewrite Hdone. reflexivity. }
  rewrite Hsame. reflexivity.
Qed.

(** X6: on a first call the three innermost frames are skipped by count,
    whatever they are, and nothing beyond the next twenty-five is looked
    at: two stacks that agree on that window give the same answer. *)
Theorem getCaller_depends_on_window_only st st' σ :
  callerInitOnce σ = false ->
  onceStack st = onceStack st' ->
  take 25 (drop 3 (callerStack st)) = take 25 (drop 3 (callerStack st')) ->
  getCaller st σ = getCaller st' σ.
Proof.
  intros Hinit Honce Hwin. rewrite !getCaller_run.
  assert (Hstate : afterCallerInit st σ = afterCallerInit st' σ).
  { unfold afterCallerInit. rewrite Hinit, Honce. reflexivity. }
  unfold resolvedCaller, callerWindow. rewrite <- Hstate.
  rewrite (afterCallerInit_depth st σ Hinit).
  unfold Callers, knownLogFrames, maximumCallerDepth. rewrite Hwin. reflexivity.
Qed.

Lemma getCaller_depends_on_window_only_witness :
  getCaller Example.deepStacks initialState =
  getCaller
    {| onceStack := onceStack Example.deepStacks;
       callerStack :=
         replicate 3 Example.handler
         ++ replicate 25 (Example.internal "(*Log).Error" 220) |}
    initialState.
Proof.
  apply getCaller_depends_on_window_only; reflexivity.
Defined.

(** ** More on contexts *)

(** X7: a context that carries no data map (no value under the key, a
    value of another type, or the nil map) is not an error: the lookup
    returns nil (for the nil map, an empty correlation id), and a log call
    hands over the base fields only, whatever the heap holds. *)
Theorem context_without_data_map_degrades l st c args σ :
  (forall ref, Value c ContextDataMapKey <> VMap (Some ref)) ->
  getContextData c σ =
    Some (match Value c ContextDataMapKey with
          | VMap _ => Some {| contextId := "" |}
          | _ => None
          end, σ) /\
  Info l st c args σ =
    Some ({| level := InfoLevel; data := Data (entry l); message := Print args |}, σ) /\
  Error l st c args σ =
    Some ({| level := ErrorLevel;
             data := callerFields (resolvedCaller st σ) ∪ Data (entry l);
             message := Print args |}, afterCallerInit st σ).
Proof.
  intros Hno.
  assert (Hcf : contextFields σ c = Some ∅).
  { unfold contextFields.
    destruct (Value c ContextDataMapKey) as [|[ref|]|ty]; try reflexivity.
    destruct (Hno ref eq_refl). }
  split.
  { unfold getContextData.
    destruct (Value c ContextDataMapKey) as [|[ref|]|ty]; try reflexivity.
    destruct (Hno ref eq_refl). }
  split.
  - unfold Info. rewrite (leveled_run l st c σ ∅ InfoLevel (Print args) Hcf).
    change (InfoLevel <=? ErrorLevel)%N with false. cbv iota.
    rewrite (left_id_L ∅ (∪)). reflexivity.
  - unfold Error. rewrite (leveled_run l st c σ ∅ ErrorLevel (Print args) Hcf).
    change (ErrorLevel <=? ErrorLevel)%N with true. cbv iota.
    rewrite (left_id_L ∅ (∪)). reflexivity.
Qed.

Lemma context_without_data_map_degrades_witness :
  Info (NewLogger "svc") (Example.stacks "(*Log).Info")
    (WithValue Background ContextDataMapKey (VOther "int")) [] Example.state =
  Some ({| level := InfoLevel; data := Data (entry (NewLogger "svc"));
           message := Print [] |}, Example.state).
Proof.
  apply (context_without_data_map_degrades (NewLogger "svc")
           (Example.stacks "(*Log).Info")
           (WithValue Background ContextDataMapKey (VOther "int")) []
           Example.state).
  intros ref. discriminate.
Defined.

(** What a derivation does to the heap, seen through the lookups. *)
Lemma requestContextId_run r req σ :
  requests σ !! r = Some req ->
  requestContextId r σ = getContextData (http.ctx req) σ.
Proof.
  intros Hr. unfold requestContextId, Request_Context, mbind, M_bind, readRequest.
  rewrite Hr. reflexivity.
Qed.

Lemma derived_keeps_request r req ref m σ r0 req0 :
  requests σ !! r0 = Some req0 ->
  requests (derived r req ref m σ).2 !! r0 = Some req0.
Proof.
  intros Hr0. simpl. rewrite lookup_insert_ne; [exact Hr0|].
  intros He. pose proof (fresh_request σ) as Hf. rewrite He in Hf. congruence.
Qed.

Lemma derived_fresh_lookup r req m σ r0 req0 :
  requests σ !! r0 = Some req0 ->
  is_Some (contextFields σ (http.ctx req0)) ->
  let res := derived r req (fresh (dom (maps σ))) m σ in
  requests res.2 !! r0 = Some req0 /\
  is_Some (contextFields res.2 (http.ctx req0)) /\
  fst <$> requestContextId r0 res.2 = fst <$> requestContextId r0 σ.
Proof.
  intros Hr0 Hwf res.
  assert (Hne : fresh (dom (requests σ)) <> r0).
  { intros He. pose proof (fresh_request σ) as Hf. rewrite He in Hf. congruence. }
  assert (Hreq : requests res.2 !! r0 = Some req0).
  { simpl. rewrite lookup_insert_ne by exact Hne. exact Hr0. }
  assert (Hfresh : Value (http.ctx req0) ContextDataMapKey
                   <> VMap (Some (fresh (dom (maps σ))))).
  { intros He. destruct Hwf as [cf Hcf]. unfold contextFields in Hcf.
    rewrite He, fresh_map_ref in Hcf. discriminate. }
  destruct (derived_lookup_unchanged r req _ m σ _ Hfresh) as (_ & Hcf & Hget).
  split; [exact Hreq|]. split; [fold res in Hcf; rewrite Hcf; exact Hwf|].
  rewrite (requestContextId_run r0 req0 _ Hreq), (requestContextId_run r0 req0 σ Hr0).
  exact Hget.
Qed.

Lemma derived_own_lookup r req ref contextId m σ :
  let res := derived r req ref (<[ContextIdKey := contextId]> m) σ in
  exists req',
    requests res.2 !! res.1 = Some req' /\
    is_Some (contextFields res.2 (http.ctx req')) /\
    fst <$> requestContextId res.1 res.2 = Some (Some {| contextId := contextId |}).
Proof.
  cbv zeta.
  pose proof (derived_request r req ref (<[ContextIdKey := contextId]> m) σ) as Hreq.
  assert (Hmap : maps (derived r req ref (<[ContextIdKey := contextId]> m) σ).2
                   !! ref = Some (<[ContextIdKey := contextId]> m))
    by apply lookup_insert_eq.
  eexists. split; [exact Hreq|]. split.
  - unfold contextFields. cbn [setCtx http.ctx].
    rewrite Value_WithValue_eq, Hmap. eexists; reflexivity.
  - rewrite (requestContextId_run _ _ _ Hreq).
    rewrite getContextData_result. cbn [setCtx http.ctx].
    rewrite Value_WithValue_eq, Hmap. unfold mapIndex.
    rewrite lookup_insert_eq. reflexivity.
Qed.

(** X8: derived requests keep their own correlation ids.  After deriving
    [r1] from [r], then [r2] from [r1], then [r3] from [r] again, the
    lookup through each request returns the id it was derived with: a
    child shadows its parent, and siblings do not see each other. *)
Theorem derived_requests_keep_their_ids r req id1 id2 id3 σ :
  requests σ !! r = Some req ->
  exists r1 σ1 r2 σ2 r3 σ3,
    AppendContextDataAndSetValue r id1 σ = Some (r1, σ1) /\
    AppendContextDataAndSetValue r1 id2 σ1 = Some (r2, σ2) /\
    SetContextDataAndSetValue r None id3 σ2 = Some (r3, σ3) /\
    fst <$> requestContextId r1 σ3 = Some (Some {| contextId := id1 |}) /\
    fst <$> requestContextId r2 σ3 = Some (Some {| contextId := id2 |}) /\
    fst <$> requestContextId r3 σ3 = Some (Some {| contextId := id3 |}).
Proof.
  intros Hr.
  (* first derivation *)
  set (res1 := derived r req (fresh (dom (maps σ))) {[ ContextIdKey := id1 ]} σ).
  assert (Hrun1 : AppendContextDataAndSetValue r id1 σ = Some res1)
    by (apply AppendContextDataAndSetValue_run, Hr).
  destruct (derived_own_lookup r req (fresh (dom (maps σ))) id1 ∅ σ)
    as (req1 & Hreq1 & Hwf1 & Hid1).
  change (derived r req (fresh (dom (maps σ))) (<[ContextIdKey := id1]> ∅) σ)
    with res1 in Hreq1, Hwf1, Hid1.
  destruct (derived_original r req (fresh (dom (maps σ)))
              {[ ContextIdKey := id1 ]} σ Hr) as [_ Hr_1].
  fold res1 in Hr_1.
  (* second derivation, from the first *)
  set (res2 := derived res1.1 req1 (fresh (dom (maps res1.2)))
                 {[ ContextIdKey := id2 ]} res1.2).
  assert (Hrun2 : AppendContextDataAndSetValue res1.1 id2 res1.2 = Some res2)
    by (apply AppendContextDataAndSetValue_run, Hreq1).
  destruct (derived_own_lookup res1.1 req1 (fresh (dom (maps res1.2))) id2 ∅ res1.2)
    as (req2 & Hreq2 & Hwf2 & Hid2).
  change (derived res1.1 req1 (fresh (dom (maps res1.2)))
            (<[ContextIdKey := id2]> ∅) res1.2) with res2 in Hreq2, Hwf2, Hid2.
  destruct (derived_fresh_lookup res1.1 req1 {[ ContextIdKey := id2 ]} res1.2
              res1.1 req1 Hreq1 Hwf1) as (Hreq1_2 & Hwf1_2 & Hid1_2).
  fold res2 in Hreq1_2, Hwf1_2, Hid1_2.
  pose proof (derived_keeps_request res1.1 req1 (fresh (dom (maps res1.2)))
                {[ ContextIdKey := id2 ]} res1.2 r req Hr_1) as Hr_2.
  fold res2 in Hr_2.
  (* third derivation, from the original again *)
  set (res3 := derived r req (fresh (dom (maps res2.2)))
                 {[ ContextIdKey := id3 ]} res2.2).
  assert (Hrun3 : SetContextDataAndSetValue r None id3 res2.2 = Some res3)
    by (apply SetContextDataAndSetValue_nil_run, Hr_2).
  destruct (derived_own_lookup r req (fresh (dom (maps res2.2))) id3 ∅ res2.2)
    as (req3 & Hreq3 & Hwf3 & Hid3).
  change (derived r req (fresh (dom (maps res2.2)))
            (<[ContextIdKey := id3]> ∅) res2.2) with res3 in Hreq3, Hwf3, Hid3.
  destruct (derived_fresh_lookup r req {[ ContextIdKey := id3 ]} res2.2
              res1.1 req1 Hreq1_2 Hwf1_2) as (_ & _ & Hid1_3).
  destruct (derived_fresh_lookup r req {[ ContextIdKey := id3 ]} res2.2
              res2.1 req2 Hreq2 Hwf2) as (_ & _ & Hid2_3).
  fold res3 in Hid1_3, Hid2_3.
  exists res1.1, res1.2, res2.1, res2.2, res3.1, res3.2.
  rewrite <- !surjective_pairing.
  split; [exact Hrun1|]. split; [exact Hrun2|]. split; [exact Hrun3|].
  split; [rewrite Hid1_3, Hid1_2; exact Hid1|].
  split; [rewrite Hid2_3; exact Hid2 | exact Hid3].
Qed.

Lemma derived_requests_keep_their_ids_witness :
  exists r1 σ1 r2 σ2 r3 σ3,
    AppendContextDataAndSetValue 1 "a" Example.state = Some (r1, σ1) /\
    AppendContextDataAndSetValue r1 "b" σ1 = Some (r2, σ2) /\
    SetContextDataAndSetValue 1 None "c" σ2 = Some (r3, σ3) /\
    fst <$> requestContextId r1 σ3 = Some (Some {| contextId := "a" |}) /\
    fst <$> requestContextId r2 σ3 = Some (Some {| contextId := "b" |}) /\
    fst <$> requestContextId r3 σ3 = Some (Some {| contextId := "c" |}).
Proof.
  apply (derived_requests_keep_their_ids 1%positive Example.request "a" "b" "c"
           Example.state).
  reflexivity.
Defined.

(** ** More on the records *)

(** X9: the base field [service] is not protected.  A context entry named
    [service] takes its place in the record, and an entry of the extra
    map of InfoMap takes the place of both. *)
Theorem service_field_can_be_shadowed service st c extras args σ cf :
  contextFields σ c = Some cf ->
  exists e e',
    Info (NewLogger service) st c args σ = Some (e, σ) /\
    data e !! "service" = Some (default (VString service) (cf !! "service")) /\
    InfoMap (NewLogger service) st c (Some extras) args σ = Some (e', σ) /\
    data e' !! "service" =
      Some (default (default (VString service) (cf !! "service"))
              (extras !! "service")).
Proof.
  intros Hcf. eexists _, _.
  split; [exact (leveled_run (NewLogger service) st c σ cf InfoLevel _ Hcf)|].
  split.
  { cbn [data]. rewrite NewLogger_Data, lookup_union.
    rewrite lookup_singleton_eq. destruct (cf !! "service"); reflexivity. }
  split; [apply (InfoMap_run (NewLogger service) st c extras args σ cf Hcf)|].
  cbn [data]. rewrite NewLogger_Data, !lookup_union.
  rewrite lookup_singleton_eq.
  destruct (extras !! "service"), (cf !! "service"); reflexivity.
Qed.

Lemma service_field_can_be_shadowed_witness :
  exists e,
    Info (NewLogger "svc") (Example.stacks "(*Log).Info")
      (WithValue Background ContextDataMapKey (VMap (Some 1%positive))) []
      (setMaps {[ 1%positive := {[ "service" := "other" ]} ]} initialState)
    = Some (e, setMaps {[ 1%positive := {[ "service" := "other" ]} ]} initialState) /\
    data e !! "service" = Some (VString "other").
Proof.
  destruct (service_field_can_be_shadowed "svc" (Example.stacks "(*Log).Info")
              (WithValue Background ContextDataMapKey (VMap (Some 1%positive)))
              ∅ []
              (setMaps {[ 1%positive := {[ "service" := "other" ]} ]} initialState)
              {[ "service" := VString "other" ]})
    as (e & _ & Hrun & Hservice & _).
  - reflexivity.
  - exists e. split; [exact Hrun | exact Hservice].
Defined.

(** X10: InfoMap with the nil map, or with an empty one, is Info. *)
Theorem InfoMap_without_extras_is_Info l st c args σ :
  InfoMap l st c None args σ = Info l st c args σ /\
  InfoMap l st c (Some ∅) args σ = Info l st c args σ.
Proof.
  split; [reflexivity|].
  unfold InfoMap, Info, mbind, M_bind.
  destruct (setCallStackTrace newLogParams InfoLevel st σ) as [[lp σ1]|];
    [|reflexivity].
  destruct (injectContextDataMap lp c σ1) as [[lp' σ2]|]; [|reflexivity].
  cbn [fields]. rewrite rangeAssign_union, (left_id_L ∅ (∪)). reflexivity.
Qed.

(** X11: every entry of the map handed to SetContextDataAndSetValue
    reaches the records logged with the derived request's context, and
    [context_id] carries the given correlation id. *)
Theorem seeded_entries_reach_the_record l st args r req ref m contextId σ :
  requests σ !! r = Some req ->
  maps σ !! ref = Some m ->
  exists r' σ' req' e,
    SetContextDataAndSetValue r (Some ref) contextId σ = Some (r', σ') /\
    requests σ' !! r' = Some req' /\
    Info l st (http.ctx req') args σ' = Some (e, σ') /\
    data e !! "context_id" = Some (VString contextId) /\
    forall k v, k <> "context_id" -> m !! k = Some v ->
      data e !! k = Some (VString v).
Proof.
  intros Hr Hm.
  set (res := derived r req ref (<[ContextIdKey := contextId]> m) σ).
  pose proof (derived_request r req ref (<[ContextIdKey := contextId]> m) σ) as Hreq.
  fold res in Hreq.
  assert (Hcf : contextFields res.2
                  (http.ctx (setCtx (WithValue (http.ctx req) ContextDataMapKey
                                       (VMap (Some ref))) req))
                = Some (VString <$> <[ContextIdKey := contextId]> m)).
  { unfold contextFields. cbn [setCtx http.ctx]. rewrite Value_WithValue_eq.
    unfold res. rewrite derived_maps, decide_True by reflexivity. reflexivity. }
  exists res.1, res.2. eexists _, _.
  split.
  { rewrite (SetContextDataAndSetValue_map_run r req ref m contextId σ Hr Hm).
    rewrite <- surjective_pairing. reflexivity. }
  split; [exact Hreq|].
  split; [exact (leveled_run l st _ res.2 _ InfoLevel (Print args) Hcf)|].
  cbn [data]. split.
  - apply lookup_union_Some_l. rewrite lookup_fmap, lookup_insert_eq. reflexivity.
  - intros k v Hk Hv. apply lookup_union_Some_l.
    rewrite lookup_fmap, lookup_insert_ne by (unfold ContextIdKey; congruence).
    rewrite Hv. reflexivity.
Qed.

Lemma seeded_entries_reach_the_record_witness :
  exists r' σ' req' e,
    SetContextDataAndSetValue 1 (Some 2%positive) "req-43" Example2.state
      = Some (r', σ') /\
    requests σ' !! r' = Some req' /\
    Info (NewLogger "svc") (Example.stacks "(*Log).Info") (http.ctx req') [] σ'
      = Some (e, σ') /\
    data e !! "context_id" = Some (VString "req-43") /\
    data e !! "tenant" = Some (VString "acme").
Proof.
  destruct (seeded_entries_reach_the_record (NewLogger "svc")
              (Example.stacks "(*Log).Info") [] 1%positive Example.request
              2%positive Example2.extra "req-43" Example2.state)
    as (r' & σ' & req' & e & Hrun & Hreq & Hinfo & Hid & Hseed).
  - reflexivity.
  - reflexivity.
  - exists r', σ', req', e. repeat (split; [assumption|]).
    apply Hseed; [discriminate | reflexivity].
Defined.

(** X12: the context holds the map, not a copy of it.  What the caller
    writes into the map after the derivation shows in the records logged
    afterwards with the derived request's context, the correlation id
    included. *)
Theorem later_writes_reach_the_record l st args r req ref m contextId key value σ :
  requests σ !! r = Some req ->
  maps σ !! ref = Some m ->
  exists r' σ' req' e σ'',
    SetContextDataAndSetValue r (Some ref) contextId σ = Some (r', σ') /\
    requests σ' !! r' = Some req' /\
    (mapAssign ref key value;; Info l st (http.ctx req') args) σ' = Some (e, σ'') /\
    data e !! key = Some (VString value).
Proof.
  intros Hr Hm.
  set (res := derived r req ref (<[ContextIdKey := contextId]> m) σ).
  pose proof (derived_request r req ref (<[ContextIdKey := contextId]> m) σ) as Hreq.
  fold res in Hreq.
  assert (Hmap : maps res.2 !! ref = Some (<[ContextIdKey := contextId]> m)).
  { unfold res. rewrite derived_maps, decide_True by reflexivity. reflexivity. }
  set (σ2 := setMaps (<[ref := <[key := value]> (<[ContextIdKey := contextId]> m)]>
                        (maps res.2)) res.2).
  assert (Hcf : contextFields σ2
                  (http.ctx (setCtx (WithValue (http.ctx req) ContextDataMapKey
                                       (VMap (Some ref))) req))
                = Some (VString <$> <[key := value]> (<[ContextIdKey := contextId]> m))).
  { unfold contextFields. cbn [setCtx http.ctx]. rewrite Value_WithValue_eq.
    unfold σ2. cbn [maps setMaps]. rewrite lookup_insert_eq. reflexivity. }
  exists res.1, res.2. eexists _, _, _.
  split.
  { rewrite (SetContextDataAndSetValue_map_run r req ref m contextId σ Hr Hm).
    rewrite <- surjective_pairing. reflexivity. }
  split; [exact Hreq|].
  split.
  { unfold mbind at 1, M_bind at 1, mapAssign. rewrite Hmap. fold σ2.
    exact (leveled_run l st _ σ2 _ InfoLevel (Print args) Hcf). }
  cbn [data]. apply lookup_union_Some_l.
  rewrite lookup_fmap, lookup_insert_eq. reflexivity.
Qed.

Lemma later_writes_reach_the_record_witness :
  exists r' σ' req' e σ'',
    SetContextDataAndSetValue 1 (Some 2%positive) "req-43" Example2.state
      = Some (r', σ') /\
    requests σ' !! r' = Some req' /\
    (mapAssign 2%positive "context_id" "changed";;
     Info (NewLogger "svc") (Example.stacks "(*Log).Info") (http.ctx req') []) σ'
      = Some (e, σ'') /\
    data e !! "context_id" = Some (VString "changed").
Proof.
  apply (later_writes_reach_the_record (NewLogger "svc")
           (Example.stacks "(*Log).Info") [] 1%positive Example.request
           2%positive Example2.extra "req-43" "context_id" "changed"
           Example2.state); reflexivity.
Defined.

(** ** More on the response wrapper *)

(** X13: whatever the order and number of status and body writes, the
    sink receives exactly the calls made on the wrapper, the recorded
    status is the last status written (the initial one if none was) and
    the recorded body the last body written (the initial one if none
    was). *)
Theorem wrapper_records_last_of_each {S} `{!http.ResponseWriter S}
    (calls : list WriterCall) (w : LoggingResponseWriter S) :
  ResponseWriter (runCalls calls w) = sinkRunCalls calls (ResponseWriter w) /\
  Status (runCalls calls w) = default (Status w) (last (codesWritten calls)) /\
  Body (runCalls calls w) =
    default (Body w) (String.string_of_list_byte <$> last (bodiesWritten calls)).
Proof.
  revert w. induction calls as [|[code|body] rest IH]; intros w.
  - repeat split.
  - cbn [runCalls sinkRunCalls]. destruct (IH (WriteHeader code w)) as (Hs & Hc & Hb).
    split; [exact Hs|]. split.
    + rewrite Hc. unfold codesWritten. cbn [omap list_omap].
      fold (codesWritten rest). rewrite last_cons.
      destruct (last (codesWritten rest)); reflexivity.
    + rewrite Hb. reflexivity.
  - cbn [runCalls sinkRunCalls]. destruct (IH (Write body w).2) as (Hs & Hc & Hb).
    unfold Write in *.
    destruct (http.ResponseWriter_Write body (ResponseWriter w)) as [res sink].
    cbn [snd fst Status Body ResponseWriter] in *.
    split; [exact Hs|]. split.
    + rewrite Hc. reflexivity.
    + rewrite Hb. unfold bodiesWritten. cbn [omap list_omap].
      fold (bodiesWritten rest). rewrite last_cons.
      destruct (last (bodiesWritten rest)); reflexivity.
Qed.

(** X14: LogResponse reports what the wrapper recorded: a handler that
    never writes a status gets [response_code] 0 in the record, whatever
    it wrote to the body, and one that writes no body gets the empty
    [response]; the context cannot replace either field. *)
Theorem LogResponse_reports_recorded_state {S} `{!http.ResponseWriter S}
    l st c (sink : S) (calls : list WriterCall) σ cf :
  contextFields σ c = Some cf ->
  exists e,
    LogResponse l st c (runCalls calls (CreateResponseWrapper sink)) σ = Some (e, σ) /\
    data e !! "response_code" = Some (VInt (default 0%Z (last (codesWritten calls)))) /\
    data e !! "response" =
      Some (VString (default "" (String.string_of_list_byte
                                   <$> last (bodiesWritten calls)))).
Proof.
  intros Hcf.
  destruct (wrapper_records_last_of_each calls (CreateResponseWrapper sink))
    as (_ & Hcode & Hbody).
  eexists. split; [apply (LogResponse_run l st c _ σ cf Hcf)|].
  cbn [data]. split; apply lookup_union_Some_l.
  - rewrite lookup_insert_ne by discriminate. rewrite lookup_insert_eq, Hcode.
    reflexivity.
  - rewrite lookup_insert_eq, Hbody. reflexivity.
Qed.

Lemma LogResponse_reports_recorded_state_witness :
  exists e,
    LogResponse (NewLogger "svc") (Example.stacks "(*Log).LogResponse")
      Example.dataCtx
      (runCalls [CallWrite ["o"%byte; "k"%byte]]
         (CreateResponseWrapper ([] : list SinkEvent)))
      Example.state = Some (e, Example.state) /\
    data e !! "response_code" = Some (VInt 0) /\
    data e !! "response" = Some (VString "ok").
Proof.
  apply (LogResponse_reports_recorded_state (NewLogger "svc")
           (Example.stacks "(*Log).LogResponse") Example.dataCtx
           ([] : list SinkEvent) [CallWrite ["o"%byte; "k"%byte]]
           Example.state Example.dataFields).
  reflexivity.
Defined.

(** ** More on logging a request *)

(** X15: a request without a body (a nil [Body]) makes LogRequest
    panic. *)
Theorem LogRequest_panics_on_nil_body `{Strconv} l st c r req σ cf :
  requests σ !! r = Some req ->
  http.Body req = None ->
  contextFields σ c = Some cf ->
  LogRequest l st c r σ = None.
Proof.
  intros Hr Hbody Hcf. unfold LogRequest.
  unfold mbind at 1, M_bind at 1.
  rewrite setCallStackTrace_skips by reflexivity.
  unfold mbind at 1, M_bind at 1.
  rewrite (injectContextDataMap_run _ c σ cf Hcf).
  unfold mbind at 1, M_bind at 1.
  rewrite (injectURLPath_run _ r req σ Hr).
  unfold mbind at 1, M_bind at 1, injectRequestBody.
  unfold mbind at 1, M_bind at 1, readRequest. rewrite Hr, Hbody. reflexivity.
Qed.

Lemma LogRequest_panics_on_nil_body_witness :
  LogRequest (H := quoteAscii) (NewLogger "svc")
    (Example.stacks "(*Log).LogRequest") Background 1
    (setRequests {[ 1%positive := setBody None Example.request ]} initialState)
  = None.
Proof.
  apply (LogRequest_panics_on_nil_body (H := quoteAscii) (NewLogger "svc")
           (Example.stacks "(*Log).LogRequest") Background 1%positive
           (setBody None Example.request)
           (setRequests {[ 1%positive := setBody None Example.request ]} initialState)
           ∅); reflexivity.
Defined.

(** X16: a read error is dropped.  When reading the body fails after the
    bytes [B], LogRequest still returns, records [B], and leaves on the
    request a body that reads as [B] followed by a clean end of file: the
    failure is not visible to whoever reads the request next. *)
Theorem LogRequest_drops_read_error `{Strconv} l st c r req b s B err σ cf :
  requests σ !! r = Some req ->
  http.Body req = Some b ->
  bodies σ !! b = Some s ->
  io.readResult s = (B, Some err) ->
  contextFields σ c = Some cf ->
  exists e σ' req' b',
    LogRequest l st c r σ = Some (e, σ') /\
    data e !! "request" = Some (VString (sprintfBody B)) /\
    requests σ' !! r = Some req' /\
    http.Body req' = Some b' /\
    bodies σ' !! b' = Some (io.bufferStream B) /\
    fst <$> readAllBody b' σ' = Some (B, None).
Proof.
  intros Hr Hbody Hs Hread Hcf.
  assert (Hbuf : bodies (bodyRestored r req b s σ).2 !! (bodyRestored r req b s σ).1
                 = Some (io.bufferStream B)).
  { rewrite bodyRestored_bodies, decide_True by reflexivity.
    rewrite Hread. reflexivity. }
  eexists _, (bodyRestored r req b s σ).2,
          (setBody (Some (bodyRestored r req b s σ).1) req),
          (bodyRestored r req b s σ).1.
  split; [apply (LogRequest_run l st c r req b s σ cf Hr Hbody Hs Hcf)|].
  rewrite Hread. cbn [fst data].
  split; [apply lookup_union_Some_l, lookup_insert_eq|].
  split; [apply lookup_insert_eq|].
  split; [reflexivity|].
  split; [exact Hbuf | apply readAllBody_bufferStream, Hbuf].
Qed.

Lemma LogRequest_drops_read_error_witness :
  exists e σ' req' b',
    LogRequest (H := quoteAscii) (NewLogger "svc")
      (Example.stacks "(*Log).LogRequest") Background 1
      (setBodies
         {[ 1%positive :=
              {| io.unread := io.Chunk ["a"%byte] (io.Fail "reset");
                 io.closed := false; io.nopCloser := false |} ]}
         Example.state)
      = Some (e, σ') /\
    data e !! "request" = Some (VString (sprintfBody (H := quoteAscii) ["a"%byte])) /\
    requests σ' !! 1%positive = Some req' /\
    http.Body req' = Some b' /\
    bodies σ' !! b' = Some (io.bufferStream ["a"%byte]) /\
    fst <$> readAllBody b' σ' = Some (["a"%byte], None).
Proof.
  apply (LogRequest_drops_read_error (H := quoteAscii) (NewLogger "svc")
           (Example.stacks "(*Log).LogRequest") Background 1%positive
           Example.request 1%positive
           {| io.unread := io.Chunk ["a"%byte] (io.Fail "reset");
              io.closed := false; io.nopCloser := false |}
           ["a"%byte] "reset" _ ∅); reflexivity.
Defined.

(** X17: logging a request twice is harmless.  The second call hands over
    the same record as the first; it reads the buffer the first call put
    on the request and puts a new buffer with the same bytes in its
    place.  Everything else is as the first call left it: the other
    fields of the request, the other requests, the data maps, the
    package variables and every other stream, the original one
    included. *)
Theorem LogRequest_twice `{Strconv} l st c r req b s σ cf :
  requests σ !! r = Some req ->
  http.Body req = Some b ->
  bodies σ !! b = Some s ->
  contextFields σ c = Some cf ->
  let B := (io.readResult s).1 in
  exists e σ1 σ2 req1 req2 b1 b2,
    LogRequest l st c r σ = Some (e, σ1) /\
    LogRequest l st c r σ1 = Some (e, σ2) /\
    requests σ1 !! r = Some req1 /\ requests σ2 !! r = Some req2 /\
    http.Body req1 = Some b1 /\ http.Body req2 = Some b2 /\
    bodies σ1 !! b1 = Some (io.bufferStream B) /\
    bodies σ2 !! b2 = Some (io.bufferStream B) /\
    fst <$> readAllBody b2 σ2 = Some (B, None) /\
    setBody None req2 = setBody None req1 /\
    maps σ2 = maps σ1 /\
    (forall r', r' <> r -> requests σ2 !! r' = requests σ1 !! r') /\
    callerInitOnce σ2 = callerInitOnce σ1 /\
    minimumCallerDepth σ2 = minimumCallerDepth σ1 /\
    thisPackageName σ2 = thisPackageName σ1 /\
    bodies σ2 !! b = bodies σ1 !! b /\
    (forall b0, b0 <> b1 -> b0 <> b2 -> bodies σ2 !! b0 = bodies σ1 !! b0).
Proof.
  intros Hr Hbody Hs Hcf B.
  set (res1 := bodyRestored r req b s σ).
  set (req1 := setBody (Some res1.1) req).
  assert (Hr1 : requests res1.2 !! r = Some req1) by apply lookup_insert_eq.
  assert (Hb1 : bodies res1.2 !! res1.1 = Some (io.bufferStream B)).
  { unfold res1. rewrite bodyRestored_bodies, decide_True by reflexivity.
    reflexivity. }
  assert (Hcf1 : contextFields res1.2 c = Some cf) by exact Hcf.
  assert (Hread1 : io.readResult (io.bufferStream B) = (B, None))
    by apply ReadAll_NewBuffer.
  set (res2 := bodyRestored r req1 res1.1 (io.bufferStream B) res1.2).
  destruct (bodyRestored_fresh r req b s σ) as [Hne1 _]. fold res1 in Hne1.
  destruct (bodyRestored_fresh r req1 res1.1 (io.bufferStream B) res1.2)
    as [Hne2 Hnew2]. fold res2 in Hne2, Hnew2.
  assert (Hb2 : bodies res2.2 !! res2.1 = Some (io.bufferStream B)).
  { unfold res2. rewrite bodyRestored_bodies, decide_True by reflexivity.
    rewrite Hread1. reflexivity. }
  assert (Hb_ne2 : b <> res2.1).
  { intros He. rewrite <- He in Hnew2. unfold res1 in Hnew2.
    rewrite bodyRestored_bodies in Hnew2.
    rewrite decide_False in Hnew2 by (fold res1; congruence).
    rewrite decide_True in Hnew2 by reflexivity. discriminate. }
  eexists _, res1.2, res2.2, req1, (setBody (Some res2.1) req1), res1.1, res2.1.
  split; [apply (LogRequest_run l st c r req b s σ cf Hr Hbody Hs Hcf)|].
  split.
  { rewrite (LogRequest_run l st c r req1 res1.1 (io.bufferStream B) res1.2 cf
               Hr1 eq_refl Hb1 Hcf1).
    rewrite Hread1. reflexivity. }
  split; [exact Hr1|]. split; [apply lookup_insert_eq|].
  split; [reflexivity|]. split; [reflexivity|].
  split; [exact Hb1|]. split; [exact Hb2|].
  split; [apply readAllBody_bufferStream, Hb2|].
  split; [reflexivity|]. split; [reflexivity|].
  split; [intros r' Hr'; apply lookup_insert_ne; congruence|].
  do 3 (split; [reflexivity|]).
  split.
  - unfold res2. rewrite bodyRestored_bodies.
    fold res2. rewrite decide_False by exact Hb_ne2.
    rewrite decide_False by congruence. reflexivity.
  - intros b0 Hb0 Hb0'. unfold res2. rewrite bodyRestored_bodies. fold res2.
    rewrite decide_False by exact Hb0'. rewrite decide_False by exact Hb0.
    reflexivity.
Qed.

Lemma LogRequest_twice_witness :
  exists e σ1 σ2,
    LogRequest (H := quoteAscii) (NewLogger "svc")
      (Example.stacks "(*Log).LogRequest") Example.dataCtx 1 Example.state
      = Some (e, σ1) /\
    LogRequest (H := quoteAscii) (NewLogger "svc")
      (Example.stacks "(*Log).LogRequest") Example.dataCtx 1 σ1
      = Some (e, σ2) /\
    maps σ2 = maps σ1.
Proof.
  destruct (LogRequest_twice (H := quoteAscii) (NewLogger "svc")
              (Example.stacks "(*Log).LogRequest") Example.dataCtx 1%positive
              Example.request 1%positive Example.body
              Example.state Example.dataFields)
    as (e & σ1 & σ2 & req1 & req2 & b1 & b2 & Hrun1 & Hrun2 & _ & _ & _ & _ & _
        & _ & _ & _ & Hmaps & _).
  - reflexivity.
  - reflexivity.
  - reflexivity.
  - reflexivity.
  - exists e, σ1, σ2. split; [exact Hrun1|]. split; [exact Hrun2 | exact Hmaps].
Defined.

(** ** The resolver on the stack of a call *)

Lemma removelast_Forall {A} (P : A -> Prop) (l : list A) :
  Forall P l -> Forall P (removelast l).
Proof.
  induction 1 as [|x l Hx Hl IH]; [constructor|].
  destruct l as [|y l]; [constructor|].
  change (removelast (x :: y :: l)) with (x :: removelast (y :: l)).
  constructor; assumption.
Qed.

Lemma package_member pkg name :
  getPackageName pkg = pkg -> hasByte "/" name = false ->
  getPackageName (pkg +:+ String "." name) = pkg.
Proof.
  intros Hpkg Hname. symmetry. apply StripsTo_getPackageName.
  apply StripsTo_suffix; [|exact Hname].
  rewrite <- Hpkg at 2. apply getPackageName_strips.
Qed.

(** X18: the resolver on a first call.  When the initialiser finds its
    own closure, a function of the package [pkg], the cached name is
    [pkg]; the frames of functions and methods of [pkg] that follow the
    three skipped frames are passed over, and the first frame outside
    [pkg] is returned if fewer than 24 package frames precede it; with 24
    or more, nil is returned. *)
Theorem getCaller_passes_over_package_frames st σ pkg top closure rest name
    pre f post :
  callerInitOnce σ = false ->
  getPackageName pkg = pkg ->
  onceStack st = top :: closure :: rest ->
  Function closure = pkg +:+ String "." name ->
  hasByte "/" name = false ->
  drop 3 (callerStack st) = pre ++ f :: post ->
  post <> [] ->
  Forall (fun g => exists m,
            Function g = pkg +:+ String "." m /\ hasByte "/" m = false) pre ->
  getPackageName (Function f) <> pkg ->
  thisPackageName (afterCallerInit st σ) = pkg /\
  ((length pre < 24)%nat ->
   getCaller st σ = Some (Some f, afterCallerInit st σ)) /\
  ((24 <= length pre)%nat ->
   getCaller st σ = Some (None, afterCallerInit st σ)).
Proof.
  intros Hinit Hpkg Honce Hclosure Hname Hstack Hpost Hpre Hf.
  assert (Hthis : thisPackageName (afterCallerInit st σ) = pkg).
  { unfold afterCallerInit. rewrite Hinit, Honce. cbn [thisPackageName].
    unfold Callers. cbn [drop take Next fst snd].
    rewrite Hclosure. apply package_member; assumption. }
  assert (Hinternal : Forall (fun g => getPackageName (Function g) = pkg) pre).
  { eapply Forall_impl; [exact Hpre|]. intros g (m & -> & Hm).
    apply package_member; assumption. }
  assert (Hwin : callerWindow st σ = take 25 (pre ++ f :: post)).
  { unfold callerWindow. rewrite (afterCallerInit_depth st σ Hinit).
    unfold Callers, knownLogFrames, maximumCallerDepth. rewrite Hstack.
    reflexivity. }
  split; [exact Hthis|]. split.
  - intros Hlen. rewrite getCaller_run. f_equal. f_equal.
    unfold resolvedCaller. rewrite Hthis, Hwin.
    apply callerLoop_first_external.
    exists pre, (take (24 - length pre) post).
    split.
    { rewrite take_app_ge by lia.
      replace (25 - length pre)%nat with (S (24 - length pre)) by lia.
      reflexivity. }
    split; [exact Hinternal|]. split; [exact Hf|].
    destruct post as [|g post]; [contradiction|].
    destruct (24 - length pre)%nat eqn:Hm; [lia | discriminate].
  - intros Hlen. rewrite getCaller_run. f_equal. f_equal.
    unfold resolvedCaller. rewrite Hthis, Hwin.
    apply callerLoop_all_internal.
    destruct (decide (length pre = 24%nat)) as [H24|H24].
    + rewrite take_app_ge by lia. rewrite H24.
      change (take (25 - 24) (f :: post)) with [f].
      rewrite removelast_last. exact Hinternal.
    + rewrite take_app_le by lia.
      apply removelast_Forall, Forall_take, Hinternal.
Qed.

Lemma getCaller_passes_over_package_frames_witness :
  getCaller (Example.stacks "(*Log).Error") initialState =
  Some (Some Example.handler,
        afterCallerInit (Example.stacks "(*Log).Error") initialState).
Proof.
  apply (getCaller_passes_over_package_frames
           (Example.stacks "(*Log).Error") initialState
           "github.com/muhammad-fakhri/log"
           (Example.external "runtime.Callers"
              "/usr/local/go/src/runtime/extern.go" 331)
           (Example.internal "getCaller.func1" 346)
           (skipn 2 (onceStack (Example.stacks "(*Log).Error")))
           "getCaller.func1"
           [Example.internal "(*Log).Error" 200] Example.handler
           (skipn 1 Example.outer)).
  - reflexivity.
  - vm_compute. reflexivity.
  - reflexivity.
  - reflexivity.
  - reflexivity.
  - reflexivity.
  - discriminate.
  - constructor; [|constructor].
    exists "(*Log).Error". split; reflexivity.
  - vm_compute. discriminate.
  - simpl. lia.
Defined.
